(** * Hybrid search over the apartment catalogue

    A shallow embedding of [src/lib/search.ts] (parameter parsing, the
    full-text query, the vector fallback with its positional score filter,
    the pagination link builder) and of the [Home] page component that
    orchestrates them, followed by the properties of the design document
    that are checked against it.  Embedded with them are the two client
    components that push a new URL (the search bar and the semantic-search
    switch), the page as it was before [search.ts] was extracted
    ([src/app/page.tsx]), and the seed script of the table.

    Conventions.
    - A JavaScript string is the [string] of its UTF-8 bytes.
    - A JavaScript number that holds a page number or a count is an integer
      ([Z] or [nat]); this is exact on the safe integers.  Scores and prices
      are IEEE-754 binary64 values, the kernel's [float].
    - The two collaborators (PostgreSQL behind drizzle, the Upstash vector
      index) are values of the records [Db] and [Index]; a request in which
      a collaborator throws is outside the model, except for the negative
      OFFSET of the older page, which the store refuses.  Every call made to
      a collaborator is recorded in a log, so that "is invoked" can be
      stated. *)

From Stdlib Require Import ZArith Lia Sorted Ascii String DecimalString DecimalN DecimalPos.
From Stdlib Require Import PrimFloat Uint63.
From stdpp Require Import base list gmap strings.

Set Warnings "-inexact-float,-register-all".

(* ================================================================== *)
(** * Strings *)
(* ================================================================== *)

Module JsString.

Definition byte (c : ascii) : N := N_of_ascii c.

Definition rev (s : string) : string :=
  string_of_list_ascii (List.rev (list_ascii_of_string s)).

(** The one-byte members of ECMAScript's WhiteSpace and LineTerminator:
    U+0009..U+000D and U+0020. *)
Definition ws1 (a : ascii) : bool :=
  ((9 <=? byte a)%N && (byte a <=? 13)%N) || (byte a =? 32)%N.

(** U+00A0, encoded C2 A0. *)
Definition ws2 (a b : ascii) : bool :=
  (byte a =? 194)%N && (byte b =? 160)%N.

(** The three-byte members: U+1680, U+2000..U+200A, U+2028, U+2029,
    U+202F, U+205F, U+3000 and U+FEFF. *)
Definition ws3 (a b c : ascii) : bool :=
  ((byte a =? 225)%N && (byte b =? 154)%N && (byte c =? 128)%N)
  || ((byte a =? 226)%N && (byte b =? 128)%N
      && (((128 <=? byte c)%N && (byte c <=? 138)%N)
          || (byte c =? 168)%N || (byte c =? 169)%N || (byte c =? 175)%N))
  || ((byte a =? 226)%N && (byte b =? 129)%N && (byte c =? 159)%N)
  || ((byte a =? 227)%N && (byte b =? 128)%N && (byte c =? 128)%N)
  || ((byte a =? 239)%N && (byte b =? 187)%N && (byte c =? 191)%N).

(** [String.prototype.trimStart]. *)
Fixpoint trimStart (s : string) : string :=
  match s with
  | EmptyString => EmptyString
  | String a s1 =>
      if ws1 a then trimStart s1
      else match s1 with
           | EmptyString => s
           | String b s2 =>
               if ws2 a b then trimStart s2
               else match s2 with
                    | EmptyString => s
                    | String c s3 => if ws3 a b c then trimStart s3 else s
                    end
           end
  end.

(** The same scan over the reversed string: the bytes of a white-space
    character are met last byte first. *)
Fixpoint trimStart_rev (s : string) : string :=
  match s with
  | EmptyString => EmptyString
  | String c s1 =>
      if ws1 c then trimStart_rev s1
      else match s1 with
           | EmptyString => s
           | String b s2 =>
               if ws2 b c then trimStart_rev s2
               else match s2 with
                    | EmptyString => s
                    | String a s3 => if ws3 a b c then trimStart_rev s3 else s
                    end
           end
  end.

(** [String.prototype.trimEnd]. *)
Definition trimEnd (s : string) : string := rev (trimStart_rev (rev s)).

(** [String.prototype.trim]. *)
Definition trim (s : string) : string := trimEnd (trimStart s).

(** A string made of white space only (the empty string included). *)
Inductive WhiteSpaceOnly : string -> Prop :=
| wso_nil : WhiteSpaceOnly EmptyString
| wso_1 a s : ws1 a = true -> WhiteSpaceOnly s -> WhiteSpaceOnly (String a s)
| wso_2 a b s :
    ws2 a b = true -> WhiteSpaceOnly s -> WhiteSpaceOnly (String a (String b s))
| wso_3 a b c s :
    ws3 a b c = true -> WhiteSpaceOnly s ->
    WhiteSpaceOnly (String a (String b (String c s))).

(** Truthiness of a string: non-empty. *)
Definition truthy (s : string) : bool := negb (String.eqb s EmptyString).

End JsString.

(* ================================================================== *)
(** * Integer-valued numbers *)
(* ================================================================== *)

Module JsNumber.

Definition is_digit (c : ascii) : bool :=
  (48 <=? N_of_ascii c)%N && (N_of_ascii c <=? 57)%N.

Fixpoint all_digits (s : string) : bool :=
  match s with
  | EmptyString => true
  | String c r => is_digit c && all_digits r
  end.

(** [/^\d+$/.test(s)]: one or more ASCII digits and nothing else (without
    the [m] flag, [$] matches at the very end of the input only). *)
Definition test_digits (s : string) : bool :=
  JsString.truthy s && all_digits s.

Fixpoint parse_digits (s : string) (acc : Z) : Z :=
  match s with
  | EmptyString => acc
  | String c r => parse_digits r (10 * acc + (Z.of_N (N_of_ascii c) - 48))
  end.

(** [parseInt(s, 10)] on a string of decimal digits, the only strings the
    source passes to it.  The value is the integer the digits denote; this
    is the number JavaScript returns when it is below [2^53], above which
    JavaScript rounds to the nearest binary64 value. *)
Definition parseInt (s : string) : Z := parse_digits s 0.

(** Decimal digits of a natural number, ["0"] for zero. *)
Definition decimal (n : N) : string := NilEmpty.string_of_uint (N.to_uint n).

Fixpoint strip_zeros_rev (s : list ascii) : list ascii :=
  match s with
  | c :: r => if Ascii.eqb c "0" then strip_zeros_rev r else s
  | [] => []
  end.

(** Exponential notation of Number::toString: first digit, the other
    significant digits after a point, ["e+"], the decimal exponent.  The
    digits are those of the integer itself, which is what JavaScript
    prints when they are its shortest representation (as for [10^21]). *)
Definition exponential (n : N) : string :=
  match decimal n with
  | EmptyString => EmptyString
  | String d rest =>
      let frac := List.rev (strip_zeros_rev (List.rev (list_ascii_of_string rest))) in
      String d
        ((match frac with [] => EmptyString | _ => String "." (string_of_list_ascii frac) end)
         +:+ "e+" +:+ decimal (N.of_nat (String.length rest)))
  end.

(** [String(n)] for an integer-valued number: plain decimal digits below
    [10^21] in absolute value, exponential notation from there on.  The
    digits are those of the integer, which are the digits JavaScript prints
    for a safe integer (below [2^53]) and for [10^21]; between the two
    JavaScript prints the shortest digits that round to the number. *)
Definition toString (n : Z) : string :=
  (if (n <? 0)%Z then "-" else "")
  +:+ (let m := Z.to_N (Z.abs n) in
       if (m <? 10 ^ 21)%N then decimal m else exponential m).

End JsNumber.

(* ================================================================== *)
(** * URLSearchParams and the query string *)
(* ================================================================== *)

Module Url.

(** A list of name-value pairs, as [URLSearchParams] holds it. *)
Definition SearchParams : Type := list (string * string).

Fixpoint replace_first (name value : string) (l : SearchParams) : SearchParams :=
  match l with
  | [] => []
  | (n, v) :: t =>
      if String.eqb n name
      then (n, value) :: List.filter (fun p => negb (String.eqb (fst p) name)) t
      else (n, v) :: replace_first name value t
  end.

(** [params.set(name, value)]: overwrite the first pair with that name and
    drop the others, or append. *)
Definition set (name value : string) (l : SearchParams) : SearchParams :=
  if existsb (fun p => String.eqb (fst p) name) l
  then replace_first name value l
  else l ++ [(name, value)].

Definition hex_digit (n : N) : ascii :=
  ascii_of_N (if (n <? 10)%N then 48 + n else 55 + n).

(** Bytes the application/x-www-form-urlencoded serializer leaves as they
    are: ASCII alphanumerics and [*], [-], [.], [_]. *)
Definition unreserved (c : ascii) : bool :=
  let n := N_of_ascii c in
  ((48 <=? n)%N && (n <=? 57)%N) || ((65 <=? n)%N && (n <=? 90)%N)
  || ((97 <=? n)%N && (n <=? 122)%N)
  || (n =? 42)%N || (n =? 45)%N || (n =? 46)%N || (n =? 95)%N.

Definition encode_byte (c : ascii) : string :=
  if (N_of_ascii c =? 32)%N then "+"
  else if unreserved c then String c EmptyString
  else String "%" (String (hex_digit (N_of_ascii c / 16))
                     (String (hex_digit (N_of_ascii c mod 16)) EmptyString)).

Fixpoint encode (s : string) : string :=
  match s with
  | EmptyString => EmptyString
  | String c r => encode_byte c +:+ encode r
  end.

(** [params.toString()]. *)
Fixpoint toString (l : SearchParams) : string :=
  match l with
  | [] => EmptyString
  | [(n, v)] => encode n +:+ "=" +:+ encode v
  | (n, v) :: t => encode n +:+ "=" +:+ encode v +:+ "&" +:+ toString t
  end.

Definition hex_value (c : ascii) : option N :=
  let n := N_of_ascii c in
  if (48 <=? n)%N && (n <=? 57)%N then Some (n - 48)%N
  else if (65 <=? n)%N && (n <=? 70)%N then Some (n - 55)%N
  else if (97 <=? n)%N && (n <=? 102)%N then Some (n - 87)%N
  else None.

(** Percent-decoding of a byte sequence. *)
Fixpoint percent_decode (s : string) : string :=
  match s with
  | EmptyString => EmptyString
  | String c s1 =>
      if Ascii.eqb c "%" then
        match s1 with
        | String h (String l r) =>
            match hex_value h, hex_value l with
            | Some a, Some b => String (ascii_of_N (16 * a + b)) (percent_decode r)
            | _, _ => String c (percent_decode s1)
            end
        | _ => String c (percent_decode s1)
        end
      else String c (percent_decode s1)
  end.

Fixpoint plus_to_space (s : string) : string :=
  match s with
  | EmptyString => EmptyString
  | String c r => String (if Ascii.eqb c "+" then " "%char else c) (plus_to_space r)
  end.

Definition decode (s : string) : string := percent_decode (plus_to_space s).

(** The pieces of [s] between occurrences of [d]; never the empty list. *)
Fixpoint split_on (d : ascii) (s : string) : list string :=
  match s with
  | EmptyString => [EmptyString]
  | String c r =>
      if Ascii.eqb c d then EmptyString :: split_on d r
      else match split_on d r with
           | h :: t => String c h :: t
           | [] => [String c EmptyString]
           end
  end.

(** [s] cut at its first [d]: what precedes it and, when there is one,
    what follows. *)
Fixpoint break_at (d : ascii) (s : string) : string * option string :=
  match s with
  | EmptyString => (EmptyString, None)
  | String c r =>
      if Ascii.eqb c d then (EmptyString, Some r)
      else let (a, b) := break_at d r in (String c a, b)
  end.

Definition parse_pair (seq : string) : string * string :=
  let (n, v) := break_at "=" seq in
  (decode n, decode (default EmptyString v)).

(** The application/x-www-form-urlencoded parser: split on [&], skip the
    empty pieces, cut each at its first [=], turn [+] into a space and
    percent-decode both sides. *)
Definition parse (input : string) : SearchParams :=
  List.map parse_pair (List.filter JsString.truthy (split_on "&" input)).

(** The query of a relative reference: what follows the first [?], up to
    a fragment. *)
Definition query_of (href : string) : string :=
  match snd (break_at "?" (fst (break_at "#" href))) with
  | Some qs => qs
  | None => EmptyString
  end.

(** [params.delete(name)]: drop every pair with that name. *)
Definition delete (name : string) (l : SearchParams) : SearchParams :=
  List.filter (fun p => negb (String.eqb (fst p) name)) l.

(** [params.get(name)]: the value of the first pair with that name. *)
Definition get (name : string) (l : SearchParams) : option string :=
  match List.filter (fun p => String.eqb (fst p) name) l with
  | p :: _ => Some (snd p)
  | [] => None
  end.

End Url.

(* ================================================================== *)
(** * Values, rows and collaborators *)
(* ================================================================== *)

(** Untyped JSON-like values, as vector metadata arrives. *)
Inductive JsValue : Type :=
| JsUndefined
| JsNull
| JsBool (b : bool)
| JsNumber (x : float)
| JsString (s : string)
| JsArray (l : list JsValue)
| JsObject (fields : list (string * JsValue)).

Module Js.

(** [!!v]. *)
Definition truthy (v : JsValue) : bool :=
  match v with
  | JsUndefined | JsNull => false
  | JsBool b => b
  | JsNumber x => negb (PrimFloat.is_zero x || PrimFloat.is_nan x)
  | JsString s => JsString.truthy s
  | JsArray _ | JsObject _ => true
  end.

(** [typeof v]. *)
Definition typeof (v : JsValue) : string :=
  match v with
  | JsUndefined => "undefined"
  | JsNull => "object"
  | JsBool _ => "boolean"
  | JsNumber _ => "number"
  | JsString _ => "string"
  | JsArray _ | JsObject _ => "object"
  end.

Fixpoint lookup_field (k : string) (fields : list (string * JsValue)) : JsValue :=
  match fields with
  | [] => JsUndefined
  | (n, v) :: t => if String.eqb n k then v else lookup_field k t
  end.

(** [o.k] for one of the keys read by the source ([id], [name],
    [imageId], [price], [description]): the field of an object,
    [undefined] on an array (whose own keys are indices and [length])
    and on an object without it. *)
Definition prop (o : JsValue) (k : string) : JsValue :=
  match o with
  | JsObject fields => lookup_field k fields
  | _ => JsUndefined
  end.

(** [Math.max] and [Math.min] on two numbers: NaN if either is NaN, and
    [+0] larger than [-0]. *)
Definition Math_max (a b : float) : float :=
  if PrimFloat.is_nan a || PrimFloat.is_nan b then PrimFloat.nan
  else if (a <? b)%float then b
  else if (b <? a)%float then a
  else if PrimFloat.get_sign a then b else a.

Definition Math_min (a b : float) : float :=
  if PrimFloat.is_nan a || PrimFloat.is_nan b then PrimFloat.nan
  else if (a <? b)%float then a
  else if (b <? a)%float then b
  else if PrimFloat.get_sign a then a else b.

(** An array index as a number. *)
Definition of_index (i : nat) : float :=
  PrimFloat.of_uint63 (Uint63.of_Z (Z.of_nat i)).

End Js.

(** [Apartment], the row type inferred from the schema: [description] is a
    nullable column; on an item cast from vector metadata it is whatever
    the metadata holds there. *)
Module Apartment.
Record t : Type := mk {
  id : string;
  name : string;
  imageId : string;
  price : float;
  description : JsValue;
}.
End Apartment.

(** [DbRow]: an apartment with the window-function count. *)
Module DbRow.
Record t : Type := mk {
  apartment : Apartment.t;
  total : nat;
}.
Definition id (r : t) : string := Apartment.id (apartment r).
End DbRow.

(** One result of [index.query]: the vector's identifier (a string or a
    number), its score and its metadata. *)
Module QueryResult.
Inductive ident : Type := IdString (s : string) | IdNumber (n : Z).
Record t : Type := mk {
  id : ident;
  score : float;
  metadata : JsValue;
}.
(** [String(r.id)]. *)
Definition String_of_id (i : ident) : string :=
  match i with
  | IdString s => s
  | IdNumber n => JsNumber.toString n
  end.
End QueryResult.

(** The relational store: the table in the order the store scans it, and
    the evaluation of the full-text predicate
    [to_tsvector('simple', lower(name || ' ' || coalesce(description, '')))
     @@ to_tsquery('simple', lower(tokens joined by ' & '))] on a row. *)
Record Db : Type := mkDb {
  apartmentTable : list Apartment.t;
  ts_match : string -> Apartment.t -> bool;
}.

(** The vector index: [query({ data, topK, includeMetadata: true })]. *)
Record Index : Type := mkIndex {
  query : string -> nat -> list QueryResult.t;
}.

(** A call made to a collaborator. *)
Inductive Call : Type :=
| DbSelect (filter : option string) (limit offset : nat)
| IndexQuery (data : string) (topK : nat).

(** An awaited computation: its result and the calls it made, in order. *)
Definition Async (A : Type) : Type := (A * list Call)%type.

Definition ret {A} (a : A) : Async A := (a, []).

Definition bind {A B} (m : Async A) (k : A -> Async B) : Async B :=
  (fst (k (fst m)), snd m ++ snd (k (fst m))).

Definition result {A} (m : Async A) : A := fst m.
Definition calls {A} (m : Async A) : list Call := snd m.

Notation "'await' x <- m ; k" := (bind m (fun x => k))
  (at level 10, x pattern, m at level 100, k at level 200).

(** [SELECT ..., count( * ) OVER() FROM apartment [WHERE ...] LIMIT l OFFSET o]:
    the window count is taken over all rows that pass the filter, before
    the limit and the offset apply. *)
Definition db_select (db : Db) (filter : option string) (limit offset : nat)
  : Async (list DbRow.t) :=
  let matching :=
    match filter with
    | Some q => List.filter (ts_match db q) (apartmentTable db)
    | None => apartmentTable db
    end in
  (List.map (fun a => DbRow.mk a (length matching))
     (firstn limit (skipn offset matching)),
   [DbSelect filter limit offset]).

Definition index_query (index : Index) (data : string) (topK : nat)
  : Async (list QueryResult.t) :=
  (query index data topK, [IndexQuery data topK]).

(* ================================================================== *)
(** * src/lib/search.ts *)
(* ================================================================== *)

Definition PAGE_SIZE : nat := 3.

(** A value of the raw [searchParams] record. *)
Inductive RawValue : Type :=
| RawString (s : string)
| RawArray (l : list string).

Module ParsedParams.
Record t : Type := mk {
  q : option string;
  page : Z;
  semanticSearch : bool;
}.
End ParsedParams.

Definition parseParams (raw : gmap string RawValue) : ParsedParams.t :=
  let rawQ :=
    match raw !! "query" with
    | Some (RawString s) => JsString.trim s
    | Some (RawArray l) => JsString.trim (List.hd EmptyString l)
    | None => EmptyString
    end in
  let q := if (0 <? String.length rawQ)%nat then Some rawQ else None in
  let rawPage :=
    match raw !! "page" with
    | Some (RawString s) => s
    | _ => EmptyString
    end in
  let parsedPage := if JsNumber.test_digits rawPage then JsNumber.parseInt rawPage else 1%Z in
  let page := if (1 <=? parsedPage)%Z then parsedPage else 1%Z in
  let semanticSearch :=
    match raw !! "semanticSearch" with
    | Some (RawString s) => String.eqb s "1"
    | _ => false
    end in
  ParsedParams.mk q page semanticSearch.

(** Truthiness of [string | null]. *)
Definition truthy_q (q : option string) : bool :=
  match q with
  | Some s => JsString.truthy s
  | None => false
  end.

(** [page] is at least 1 when it comes from [parseParams], the only caller.
    For a smaller page the source would bind a negative OFFSET, which the
    store refuses; the facts below about [fetchFromDb] are stated for
    [1 <= page]. *)
Definition fetchFromDb (db : Db) (q : option string) (page : Z)
  : Async (list DbRow.t * nat) :=
  let fetchLimit := (PAGE_SIZE + 1)%nat in
  let offset := Z.to_nat ((page - 1) * Z.of_nat PAGE_SIZE) in
  await rows <- db_select db (if truthy_q q then q else None) fetchLimit offset;
  let dbTotal :=
    match rows with
    | r :: _ => DbRow.total r
    | [] => 0%nat
    end in
  ret (rows, dbTotal).

Definition isApartmentMetadata (val : JsValue) : bool :=
  if negb (Js.truthy val) || negb (String.eqb (Js.typeof val) "object") then false
  else
    String.eqb (Js.typeof (Js.prop val "id")) "string"
    && String.eqb (Js.typeof (Js.prop val "name")) "string"
    && String.eqb (Js.typeof (Js.prop val "imageId")) "string"
    && String.eqb (Js.typeof (Js.prop val "price")) "number".

(** The cast [r.metadata as Apartment]: the fields of the object read at
    their declared types.  It is applied only to values accepted by
    [isApartmentMetadata], on which the four typed reads are exact. *)
Definition asApartment (val : JsValue) : Apartment.t :=
  let str v := match v with JsString s => s | _ => EmptyString end in
  let num v := match v with JsNumber x => x | _ => PrimFloat.nan end in
  Apartment.mk (str (Js.prop val "id")) (str (Js.prop val "name"))
    (str (Js.prop val "imageId")) (num (Js.prop val "price"))
    (Js.prop val "description").

Definition ABSOLUTE_MIN : float := 0.5%float.
Definition SCORE_DROP_TOLERANCE : float := 0.15%float.
Definition RANK_INCREMENT : float := 0.1%float.

(** [res.filter(r => !existingIds.has(String(r.id)) && isApartmentMetadata(r.metadata))]. *)
Definition valid_candidates (existingIds : gset string) (res : list QueryResult.t)
  : list QueryResult.t :=
  List.filter
    (fun r => negb (bool_decide (QueryResult.String_of_id (QueryResult.id r) ∈ existingIds))
              && isApartmentMetadata (QueryResult.metadata r))
    res.

(** [valid.map((r, i) => ({ r, i })).filter(({ r, i }) =>
      r.score >= Math.min(1, baseMin + i * RANK_INCREMENT))]. *)
Definition rank_filter (baseMin : float) (valid : list QueryResult.t)
  : list (QueryResult.t * nat) :=
  List.filter
    (fun ri => (Js.Math_min 1 (baseMin + Js.of_index (snd ri) * RANK_INCREMENT)
                <=? QueryResult.score (fst ri))%float)
    (imap (fun i r => (r, i)) valid).

Definition fetchSemanticFallback (index : Index) (q : string) (existingIds : gset string)
  : Async (list Apartment.t) :=
  await res <- index_query index q PAGE_SIZE;
  let valid := valid_candidates existingIds res in
  match valid with
  | [] => ret []
  | first :: _ =>
      (* the response type declares [score: number], on which [?? 0] is the identity *)
      let bestScore := QueryResult.score first in
      let baseMin := Js.Math_max ABSOLUTE_MIN (bestScore - SCORE_DROP_TOLERANCE)%float in
      ret (List.map (fun ri => asApartment (QueryResult.metadata (fst ri)))
             (rank_filter baseMin valid))
  end.

Definition buildHref (p : Z) (q : option string) (semanticSearch : bool) : string :=
  let params : Url.SearchParams := [] in
  let params := match q with
                | Some s => if JsString.truthy s then Url.set "query" s params else params
                | None => params
                end in
  let params := if semanticSearch then Url.set "semanticSearch" "1" params else params in
  let params := if (1 <? p)%Z then Url.set "page" (JsNumber.toString p) params else params in
  let qs := Url.toString params in
  if JsString.truthy qs then "/?" +:+ qs else "/".

(* ================================================================== *)
(** * src/app/page.tsx *)
(* ================================================================== *)

(** What [Home] computes before rendering ([items], [hasNext], [total], the
    fields of the source's [SearchResult]) and the three links it renders. *)
Module SearchResult.
Record t : Type := mk {
  items : list Apartment.t;
  hasNext : bool;
  total : nat;
  previousHref : string;
  currentHref : string;
  nextHref : string;
}.
End SearchResult.

Definition Home (db : Db) (index : Index) (searchParams : gmap string RawValue)
  : Async SearchResult.t :=
  let pp := parseParams searchParams in
  let q := ParsedParams.q pp in
  let page := ParsedParams.page pp in
  let semanticSearch := ParsedParams.semanticSearch pp in
  await fetched <- fetchFromDb db q page;
  let rows := fst fetched in
  let dbTotal := snd fetched in
  await semanticExtras <-
    (match q with
     | Some text =>
         if semanticSearch && JsString.truthy text && (length rows <? PAGE_SIZE)%nat
         then fetchSemanticFallback index text (list_to_set (List.map DbRow.id rows))
         else ret []
     | None => ret []
     end);
  let combined := List.map DbRow.apartment rows ++ semanticExtras in
  let hasNext := (PAGE_SIZE <? length combined)%nat in
  let items := firstn PAGE_SIZE combined in
  let total := (dbTotal + length semanticExtras)%nat in
  ret (SearchResult.mk items hasNext total
         (if (1 <? page)%Z then buildHref (page - 1) q semanticSearch else "#")
         (buildHref page q semanticSearch)
         (if hasNext then buildHref (page + 1) q semanticSearch else "#")).

(* ================================================================== *)
(** * From a URL to the raw [searchParams] record *)
(* ================================================================== *)

(** The framework hands [Home] the query of the request URL as a record:
    a key met once maps to its value, a key met several times to the array
    of its values in order. *)
Definition add_entry (m : gmap string RawValue) (kv : string * string)
  : gmap string RawValue :=
  match m !! kv.1 with
  | None => <[kv.1 := RawString kv.2]> m
  | Some (RawString v) => <[kv.1 := RawArray [v; kv.2]]> m
  | Some (RawArray l) => <[kv.1 := RawArray (l ++ [kv.2])]> m
  end.

Definition record_of (params : Url.SearchParams) : gmap string RawValue :=
  List.fold_left add_entry params ∅.

Definition searchParams_of_href (href : string) : gmap string RawValue :=
  record_of (Url.parse (Url.query_of href)).

(* ================================================================== *)
(** * Names for what [Home] holds in its local variables *)
(* ================================================================== *)

(** [rows] and [dbTotal] of [Home]: what [fetchFromDb] answers for the
    parsed parameters. *)
Definition Home_rows (db : Db) (searchParams : gmap string RawValue) : list DbRow.t :=
  let pp := parseParams searchParams in
  fst (result (fetchFromDb db (ParsedParams.q pp) (ParsedParams.page pp))).

Definition Home_dbTotal (db : Db) (searchParams : gmap string RawValue) : nat :=
  let pp := parseParams searchParams in
  snd (result (fetchFromDb db (ParsedParams.q pp) (ParsedParams.page pp))).

(** The condition under which [Home] awaits [fetchSemanticFallback]. *)
Definition Home_gate (db : Db) (searchParams : gmap string RawValue) : bool :=
  let pp := parseParams searchParams in
  ParsedParams.semanticSearch pp && truthy_q (ParsedParams.q pp)
  && (length (Home_rows db searchParams) <? PAGE_SIZE)%nat.

(** [semanticExtras] of [Home]. *)
Definition Home_semanticExtras (db : Db) (index : Index)
    (searchParams : gmap string RawValue) : list Apartment.t :=
  if Home_gate db searchParams
  then result (fetchSemanticFallback index
                 (default EmptyString (ParsedParams.q (parseParams searchParams)))
                 (list_to_set (List.map DbRow.id (Home_rows db searchParams))))
  else [].

(** The calls to the vector index among the calls of a computation. *)
Definition index_calls {A} (m : Async A) : list Call :=
  List.filter (fun c => match c with IndexQuery _ _ => true | DbSelect _ _ _ => false end)
    (calls m).

(** The number of rows of the table that pass the lexical predicate of
    [fetchFromDb] for the text [q], over all pages. *)
Definition total_matching (db : Db) (q : option string) : nat :=
  length (List.filter
            (fun a => match q with
                      | Some s => if JsString.truthy s then ts_match db s a else true
                      | None => true
                      end)
            (apartmentTable db)).

(** The threshold of the design document for rank [i] and best score
    [bestScore]: [min(1, max(0.5, bestScore - 0.15) + i * 0.1)]. *)
Definition rank_threshold (bestScore : float) (i : nat) : float :=
  Js.Math_min 1 (Js.Math_max 0.5 (bestScore - 0.15) + Js.of_index i * 0.1)%float.

(** [valid] of [fetchSemanticFallback]: the candidates that remain after
    the identifier and shape filter. *)
Definition fallback_valid (index : Index) (q : string) (existingIds : gset string)
  : list QueryResult.t :=
  valid_candidates existingIds (query index q PAGE_SIZE).

(** The candidates that pass the rank filter, each with its position in
    [valid]: the list [fetchSemanticFallback] maps to items. *)
Definition fallback_survivors (index : Index) (q : string) (existingIds : gset string)
  : list (QueryResult.t * nat) :=
  match fallback_valid index q existingIds with
  | [] => []
  | first :: _ =>
      rank_filter
        (Js.Math_max ABSOLUTE_MIN (QueryResult.score first - SCORE_DROP_TOLERANCE)%float)
        (fallback_valid index q existingIds)
  end.

(** A text as [parseParams] produces it: absent, or non-empty and trimmed. *)
Definition normalized_text (q : option string) : Prop :=
  match q with
  | None => True
  | Some s => s <> EmptyString /\ JsString.trim s = s
  end.

(** The pairs [buildHref] has set when it serializes. *)
Definition href_params (p : Z) (q : option string) (semanticSearch : bool)
  : Url.SearchParams :=
  (match q with
   | Some s => if JsString.truthy s then [("query", s)] else []
   | None => []
   end)
  ++ (if semanticSearch then [("semanticSearch", "1")] else [])
  ++ (if (1 <? p)%Z then [("page", JsNumber.toString p)] else []).

(** [d] does not occur in [s]. *)
Fixpoint no_char (d : ascii) (s : string) : bool :=
  match s with
  | EmptyString => true
  | String c r => negb (Ascii.eqb c d) && no_char d r
  end.

(** The characters that structure a URL query. *)
Definition separator (d : ascii) : bool :=
  Ascii.eqb d "&" || Ascii.eqb d "=" || Ascii.eqb d "#" || Ascii.eqb d "?".

(** One serialized pair. *)
Definition piece (n v : string) : string := Url.encode n +:+ "=" +:+ Url.encode v.

(* ================================================================== *)
(** * White space inside a string *)
(* ================================================================== *)

(** The string starts with a white-space character. *)
Definition leads_ws (s : string) : bool :=
  match s with
  | EmptyString => false
  | String a s1 =>
      JsString.ws1 a
      || match s1 with
         | EmptyString => false
         | String b s2 =>
             JsString.ws2 a b
             || match s2 with
                | EmptyString => false
                | String c _ => JsString.ws3 a b c
                end
         end
  end.

(** The string ends with a white-space character, read on its reversal. *)
Definition leads_ws_rev (s : string) : bool :=
  match s with
  | EmptyString => false
  | String c s1 =>
      JsString.ws1 c
      || match s1 with
         | EmptyString => false
         | String b s2 =>
             JsString.ws2 b c
             || match s2 with
                | EmptyString => false
                | String a _ => JsString.ws3 a b c
                end
         end
  end.

(* ================================================================== *)
(** * The text bound to [to_tsquery] by [fetchFromDb] *)
(* ================================================================== *)

(** The text bound to [to_tsquery] in [fetchFromDb]:
    [q.trim().split(/\s+/).filter(Boolean).join(" & ")]. *)

(** A piece under construction receives one more leading byte. *)
Definition push (a : ascii) (pieces : list string) : list string :=
  match pieces with
  | h :: t => String a h :: t
  | [] => [String a EmptyString]
  end.

(** A separator closes the current piece, unless the scan is already inside
    a run of white space. *)
Definition gap (in_ws : bool) (pieces : list string) : list string :=
  if in_ws then pieces else EmptyString :: pieces.

(** [s.split(/\s+/)], scanning from the left; [in_ws] tells that the
    preceding character was white space.  The class [\s] is the set that
    [trim] removes. *)
Fixpoint split_ws (in_ws : bool) (s : string) : list string :=
  match s with
  | EmptyString => [EmptyString]
  | String a s1 =>
      if JsString.ws1 a then gap in_ws (split_ws true s1)
      else match s1 with
           | EmptyString => push a (split_ws false s1)
           | String b s2 =>
               if JsString.ws2 a b then gap in_ws (split_ws true s2)
               else match s2 with
                    | EmptyString => push a (split_ws false s1)
                    | String c s3 =>
                        if JsString.ws3 a b c then gap in_ws (split_ws true s3)
                        else push a (split_ws false s1)
                    end
           end
  end.

(** [Array.prototype.join]. *)
Fixpoint join (sep : string) (l : list string) : string :=
  match l with
  | [] => EmptyString
  | [x] => x
  | x :: t => x +:+ sep +:+ join sep t
  end.

Definition tokens (q : string) : list string :=
  List.filter JsString.truthy (split_ws false (JsString.trim q)).

Definition tsQuery (q : string) : string := join " & " (tokens q).

(** Some position of [s] starts a white-space character. *)
Fixpoint has_ws (s : string) : bool :=
  match s with
  | EmptyString => false
  | String a s1 => leads_ws (String a s1) || has_ws s1
  end.

(* ================================================================== *)
(** * Pages of the lexical search *)
(* ================================================================== *)

(** The string [parseParams] trims: the query itself, the first element of
    an array-valued query, or the empty string. *)
Definition raw_text (v : option RawValue) : string :=
  match v with
  | Some (RawString s) => s
  | Some (RawArray l) => List.hd EmptyString l
  | None => EmptyString
  end.

(** The rows of the table that pass the lexical predicate of [fetchFromDb]
    for the text [q], in the order of the store. *)
Definition matching_rows (db : Db) (q : option string) : list Apartment.t :=
  List.filter
    (fun a => match q with
              | Some s => if JsString.truthy s then ts_match db s a else true
              | None => true
              end)
    (apartmentTable db).

(** [rows] of [fetchFromDb], as apartments. *)
Definition lexical_page (db : Db) (q : option string) (page : Z) : list Apartment.t :=
  List.map DbRow.apartment (fst (result (fetchFromDb db q page))).

(* ================================================================== *)
(** * The client components *)
(* ================================================================== *)

(** [src/components/search.tsx]: what [search] pushes to the router, given
    the current search parameters and the text in the input. *)
Module SearchBar.
Definition defaultQuery (searchParams : Url.SearchParams) : string :=
  match Url.get "query" searchParams with
  | Some v => if JsString.truthy v then v else EmptyString
  | None => EmptyString
  end.

Definition search (searchParams : Url.SearchParams) (query : string) : string :=
  let params := Url.parse (Url.toString searchParams) in
  let params :=
    if JsString.truthy (JsString.trim query)
    then Url.set "query" (JsString.trim query) params
    else Url.delete "query" params in
  let params := Url.delete "page" params in
  "/?" +:+ Url.toString params.
End SearchBar.

(** [src/components/semantic-search-toggle.tsx]: what [handleToggle] pushes. *)
Module SemanticSearchToggle.
Definition handleToggle (searchParams : Url.SearchParams) (checked : bool) : string :=
  let params := Url.parse (Url.toString searchParams) in
  let params :=
    if checked then Url.set "semanticSearch" "1" params
    else Url.delete "semanticSearch" params in
  let params := Url.delete "page" params in
  "/?" +:+ Url.toString params.
End SemanticSearchToggle.

(** The values of the pairs named [k], in order. *)
Definition values_of (k : string) (l : Url.SearchParams) : list string :=
  List.map snd (List.filter (fun p => String.eqb (fst p) k) l).

(** The record value for a list of values. *)
Definition raw_of_values (vs : list string) : option RawValue :=
  match vs with
  | [] => None
  | [v] => Some (RawString v)
  | _ => Some (RawArray vs)
  end.

(* ================================================================== *)
(** * src/app/page.tsx, the page before [search.ts] *)
(* ================================================================== *)

(** [src/app/page.tsx], the page before the helpers of [search.ts] were
    extracted: it parses the parameters inline, has no semantic fallback,
    and passes [(pageNum - 1) * pageSize] to the store as it is.  The store
    rejects a negative OFFSET, in which case there is no page; [db] stands
    for the store with this version's predicate, evaluated on [tsQuery q]. *)
Module HomeV1.

Record View : Type := mkView {
  results : list Apartment.t;
  hasNext : bool;
  total : nat;
  previousHref : string;
  currentHref : string;
  nextHref : string;
}.

Definition q (params : gmap string RawValue) : option string :=
  match params !! "query" with
  | Some (RawString s) =>
      if JsString.truthy (JsString.trim s) then Some (JsString.trim s) else None
  | _ => None
  end.

Definition pageNum (params : gmap string RawValue) : Z :=
  match params !! "page" with
  | Some (RawString s) => if JsNumber.test_digits s then JsNumber.parseInt s else 1%Z
  | _ => 1%Z
  end.

Definition pageSize : nat := 3.

Definition offset (params : gmap string RawValue) : Z :=
  ((pageNum params - 1) * Z.of_nat pageSize)%Z.

(** The text bound to [to_tsquery]: [q.split(" ").join(" & ")]. *)
Definition tsQuery (q : string) : string := join " & " (Url.split_on " " q).

Definition buildHref (q : option string) (p : Z) : string :=
  let params : Url.SearchParams := [] in
  let params := match q with
                | Some s => if JsString.truthy s then Url.set "query" s params else params
                | None => params
                end in
  let params := if (1 <? p)%Z then Url.set "page" (JsNumber.toString p) params else params in
  let qs := Url.toString params in
  if JsString.truthy qs then "/?" +:+ qs else "/".

Definition Home (db : Db) (params : gmap string RawValue) : option (Async View) :=
  let q := q params in
  let pageNum := pageNum params in
  let fetchLimit := (pageSize + 1)%nat in
  if (offset params <? 0)%Z then None
  else Some (
    await resultsRaw <-
      db_select db (if truthy_q q then q else None) fetchLimit (Z.to_nat (offset params));
    let total := match resultsRaw with r :: _ => DbRow.total r | [] => 0%nat end in
    let hasNext := (pageSize <? length resultsRaw)%nat in
    let results := firstn pageSize (List.map DbRow.apartment resultsRaw) in
    ret (mkView results hasNext total
           (if (1 <? pageNum)%Z then buildHref q (pageNum - 1) else "#")
           (buildHref q pageNum)
           (if hasNext then buildHref q (pageNum + 1) else "#"))).

End HomeV1.

(* ================================================================== *)
(** * The full-text predicates of the two pages *)
(* ================================================================== *)

(** PostgreSQL's text search with the ['simple'] configuration, as far as
    the two pages use it: whether [to_tsquery('simple', lower(t))] accepts
    the text [t] (when it does not, the statement fails), and whether
    [to_tsvector('simple', lower(d)) @@ to_tsquery('simple', lower(t))]
    holds of the document [d]. *)
Record TextSearch : Type := mkTextSearch {
  accepts : string -> bool;
  matches : string -> string -> bool;
}.

(** The nullable column [description] of a row of the table. *)
Definition description_column (a : Apartment.t) : option string :=
  match Apartment.description a with
  | JsString d => Some d
  | _ => None
  end.

(** [name || ' ' || coalesce(description, '')], the document of
    [fetchFromDb]. *)
Definition document (a : Apartment.t) : string :=
  match description_column a with
  | Some d => Apartment.name a +:+ " " +:+ d
  | None => Apartment.name a +:+ " " +:+ EmptyString
  end.

(** [name || ' ' || description], the document of the older page: NULL
    when the description is. *)
Definition document_V1 (a : Apartment.t) : option string :=
  match description_column a with
  | Some d => Some (Apartment.name a +:+ " " +:+ d)
  | None => None
  end.

(** The store as [fetchFromDb] queries it. *)
Definition search_store (ts : TextSearch) (table : list Apartment.t) : Db :=
  mkDb table (fun q a => matches ts (document a) (tsQuery q)).

(** The store as the older page queries it; a row whose document is NULL
    is not selected. *)
Definition search_store_V1 (ts : TextSearch) (table : list Apartment.t) : Db :=
  mkDb table
    (fun q a =>
       match document_V1 a with
       | Some d => matches ts d (HomeV1.tsQuery q)
       | None => false
       end).

(** [Home] on this store: there is no page when the store does not accept
    the text bound to [to_tsquery]. *)
Definition Home_served (ts : TextSearch) (table : list Apartment.t) (index : Index)
    (searchParams : gmap string RawValue) : option (Async SearchResult.t) :=
  match ParsedParams.q (parseParams searchParams) with
  | Some t =>
      if accepts ts (tsQuery t)
      then Some (Home (search_store ts table) index searchParams)
      else None
  | None => Some (Home (search_store ts table) index searchParams)
  end.

(** The older page on this store: no page for a text the store does not
    accept, nor for a negative OFFSET. *)
Definition HomeV1_served (ts : TextSearch) (table : list Apartment.t)
    (params : gmap string RawValue) : option (Async HomeV1.View) :=
  match HomeV1.q params with
  | Some t =>
      if accepts ts (HomeV1.tsQuery t)
      then HomeV1.Home (search_store_V1 ts table) params
      else None
  | None => HomeV1.Home (search_store_V1 ts table) params
  end.

(* ================================================================== *)
(** * The seed script *)
(* ================================================================== *)

(** The seed script: twelve apartments with fixed pictures and
    descriptions, generated names and prices, inserted with
    ON CONFLICT DO NOTHING. *)
Module Seed.

(** The generators of [faker]: the street address and the parsed price
    ([parseFloat(faker.commerce.price(...))]) drawn for the [i]-th entry. *)
Record Faker : Type := mkFaker {
  streetAddress : nat -> string;
  price : nat -> float;
}.

Record Entry : Type := mkEntry {
  imageId : string;
  description : string;
}.

Definition apartmentsData : list Entry := [
  mkEntry
    "https://images.unsplash.com/photo-1522708323590-d24dbb6b0267?auto=format&fit=crop&w=1200&q=80"
    "Modern loft in the city center with exposed brick, large windows, and plenty of natural light.";
  mkEntry
    "https://images.unsplash.com/photo-1560448204-e02f11c3d0e2?auto=format&fit=crop&w=1200&q=80"
    "Cozy studio near public transport, ideal for singles or students; compact kitchen and efficient layout.";
  mkEntry
    "https://images.unsplash.com/photo-1630699293784-9f977570255a?auto=format&fit=crop&w=1200&q=80"
    "Spacious two-bedroom apartment with balcony overlooking a quiet park — great for families.";
  mkEntry
    "https://images.unsplash.com/photo-1484154218962-a197022b5858?auto=format&fit=crop&w=1200&q=80"
    "Charming historic apartment with original moldings and hardwood floors, recently renovated for modern comfort.";
  mkEntry
    "https://images.unsplash.com/photo-1493809842364-78817add7ffb?auto=format&fit=crop&w=1200&q=80"
    "Luxury penthouse with skyline views, private terrace, and high-end finishes throughout.";
  mkEntry
    "https://images.unsplash.com/photo-1658218635253-64728f6234be?auto=format&fit=crop&w=1200&q=80"
    "Renovated two-bedroom with open-plan living area and modern appliances, close to shops and cafes.";
  mkEntry
    "https://images.unsplash.com/photo-1600585154340-be6161a56a0c?auto=format&fit=crop&w=1200&q=80"
    "Sunny one-bedroom with high ceilings and hardwood floors, perfect for professionals working nearby.";
  mkEntry
    "https://images.unsplash.com/photo-1580587771525-78b9dba3b914?auto=format&fit=crop&w=1200&q=80"
    "Stylish industrial loft with floor-to-ceiling windows and exposed beams for a modern aesthetic.";
  mkEntry
    "https://images.unsplash.com/photo-1630699144867-37acec97df5a?auto=format&fit=crop&w=1200&q=80"
    "Seaside apartment with panoramic ocean views and a balcony — great for weekend getaways.";
  mkEntry
    "https://images.unsplash.com/photo-1540518614846-7eded433c457?auto=format&fit=crop&w=1200&q=80"
    "Mountain-view apartment with cozy wood interiors and a warm, cabin-like atmosphere.";
  mkEntry
    "https://images.unsplash.com/photo-1554995207-c18c203602cb?auto=format&fit=crop&w=1200&q=80"
    "Quiet suburban apartment with garden access and plenty of storage space.";
  mkEntry
    "https://images.unsplash.com/photo-1580041065738-e72023775cdc?auto=format&fit=crop&w=1200&q=80"
    "Minimalist new-build with smart-home features, energy-efficient appliances, and clean lines."
].

Definition apartments (faker : Faker) : list Apartment.t :=
  imap (fun i e =>
          Apartment.mk
            (JsNumber.toString (Z.of_nat i + 1))
            (streetAddress faker i +:+ " Apt " +:+ JsNumber.toString (Z.of_nat i + 1))
            (imageId e)
            (price faker i)
            (JsString (description e)))
       apartmentsData.

(** [INSERT ... ON CONFLICT DO NOTHING] of one row into a table whose
    primary key is [id]. *)
Definition insert_onConflictDoNothing (table : list Apartment.t) (a : Apartment.t)
  : list Apartment.t :=
  if existsb (fun r => String.eqb (Apartment.id r) (Apartment.id a)) table
  then table
  else table ++ [a].

(** [main]: the inserts are started together and none is awaited before
    the next starts, so they reach the store in some order [arrival] of
    the twelve rows. *)
Definition main (arrival : list Apartment.t) (table : list Apartment.t)
  : list Apartment.t :=
  fold_left insert_onConflictDoNothing arrival table.

End Seed.

Definition seed_ids : list string :=
  ["1"; "2"; "3"; "4"; "5"; "6"; "7"; "8"; "9"; "10"; "11"; "12"].

(* ================================================================== *)
(** * Sample data *)
(* ================================================================== *)

Module Sample.

Definition apt (i : string) : Apartment.t :=
  Apartment.mk i ("Apt " +:+ i) ("https://img.example/" +:+ i) 1200%float
    (JsString "Sunny loft near the park").

Definition meta (i : string) : JsValue :=
  JsObject [("id", JsString i); ("name", JsString ("Apt " +:+ i));
            ("imageId", JsString ("https://img.example/" +:+ i));
            ("price", JsNumber 1200%float)].

Definition cand (vid : string) (s : float) (i : string) : QueryResult.t :=
  QueryResult.mk (QueryResult.IdString vid) s (meta i).

(** A store in which every row matches the text ["loft"] and no other. *)
Definition db_of (ids : list string) : Db :=
  mkDb (List.map apt ids) (fun q _ => String.eqb q "loft").

Definition index_of (res : list QueryResult.t) : Index :=
  mkIndex (fun _ _ => res).

Definition request (text page : string) (semantic : bool) : gmap string RawValue :=
  let m : gmap string RawValue := <["query" := RawString text]> ∅ in
  let m := if semantic then <["semanticSearch" := RawString "1"]> m else m in
  if JsString.truthy page then <["page" := RawString page]> m else m.

Definition one_row : Db := db_of ["1"].
Definition two_rows : Db := db_of ["1"; "2"].
Definition three_rows : Db := db_of ["1"; "2"; "3"].

(** Two hits that are not in the store. *)
Definition two_hits : Index :=
  index_of [cand "7" 0.9%float "7"; cand "8" 0.9%float "8"].


(** Vectors stored under the identifiers of their apartments. *)
Definition own_ids : Index :=
  index_of [cand "1" 0.9%float "1"; cand "5" 0.9%float "5"].

Definition four_scores : Index :=
  index_of [cand "a" 0.9%float "a"; cand "b" 0.95%float "b";
            cand "c" 0.85%float "c"; cand "d" 0.3%float "d"].

(** [/?query=loft&semanticSearch=1]. *)
Definition loft : gmap string RawValue := request "loft" "" true.

(** Metadata without a description, and with a numeric one. *)
Definition bare_fields : list (string * JsValue) :=
  [("id", JsString "4"); ("name", JsString "Apt 4");
   ("imageId", JsString "https://img.example/4"); ("price", JsNumber 1200%float)].
Definition bare : JsValue := JsObject bare_fields.
Definition odd_fields : list (string * JsValue) :=
  [("description", JsNumber 7%float); ("id", JsString "4");
   ("name", JsString "Apt 4"); ("imageId", JsString "https://img.example/4");
   ("price", JsNumber 1200%float)].
Definition odd_description : JsValue := JsObject odd_fields.

Definition blank : string :=
  String " " (String "009" (String "194" (String "160" EmptyString))).

End Sample.

(** Further data: a store of four matching rows, an index without hits,
    a text with white space around it, and one draw of the generators. *)
Module Scenario.

Definition four_rows : Db := Sample.db_of ["1"; "2"; "3"; "4"].

Definition no_hits : Index := Sample.index_of [].

(** [/?query=loft]. *)
Definition first_page : gmap string RawValue := Sample.request "loft" "" false.

(** Two spaces, the text, a tab. *)
Definition padded : string := "  sea view" +:+ String "009" EmptyString.

(** A text search that accepts any non-empty text and finds the two words
    ["sunny"] and ["loft"] in every document. *)
Definition engine : TextSearch :=
  mkTextSearch JsString.truthy (fun _ t => String.eqb t "sunny & loft").

Definition table : list Apartment.t := List.map Sample.apt ["1"; "2"; "3"; "4"].

(** [/?query=sunny+loft]. *)
Definition two_words : gmap string RawValue := Sample.request "sunny loft" "" false.

(** What the older page answers to [two_words] on [table]. *)
Definition v1_two_words : Async HomeV1.View :=
  match HomeV1_served engine table two_words with
  | Some v => v
  | None => ret (HomeV1.mkView [] false 0 EmptyString EmptyString EmptyString)
  end.

Definition faker : Seed.Faker :=
  Seed.mkFaker (fun _ => "12 Elm Street") (fun _ => 950%float).

End Scenario.


Ltac by_bytes c := destruct c as [[] [] [] [] [] [] [] []]; reflexivity.

(* ================================================================== *)
(** * Facts about strings *)
(* ================================================================== *)

Section StringFacts.

Lemma app_cons (c : ascii) (a b : string) : String c a +:+ b = String c (a +:+ b).
Proof. reflexivity. Qed.

Lemma app_empty_r (a : string) : a +:+ EmptyString = a.
Proof. induction a as [|c a IH]; [reflexivity|]. rewrite app_cons, IH. reflexivity. Qed.

Lemma string_app_assoc (a b c : string) : (a +:+ b) +:+ c = a +:+ (b +:+ c).
Proof.
  induction a as [|x a IH]; [reflexivity|]. rewrite !app_cons, IH. reflexivity.
Qed.

Lemma truthy_true (s : string) : JsString.truthy s = true <-> s <> EmptyString.
Proof. destruct s; cbn; split; congruence. Qed.

Lemma length_pos_truthy (s : string) :
  (0 <? String.length s)%nat = JsString.truthy s.
Proof. destruct s; reflexivity. Qed.

Lemma ws2_not_ws1 (a b : ascii) : JsString.ws2 a b = true -> JsString.ws1 a = false.
Proof.
  unfold JsString.ws2, JsString.ws1. rewrite andb_true_iff, N.eqb_eq.
  intros [-> _]. reflexivity.
Qed.

Lemma ws3_lead (a b c : ascii) :
  JsString.ws3 a b c = true ->
  JsString.byte a = 225%N \/ JsString.byte a = 226%N
  \/ JsString.byte a = 227%N \/ JsString.byte a = 239%N.
Proof.
  unfold JsString.ws3. rewrite !orb_true_iff, !andb_true_iff, !N.eqb_eq. tauto.
Qed.

Lemma ws3_not_ws1 (a b c : ascii) : JsString.ws3 a b c = true -> JsString.ws1 a = false.
Proof.
  intros H. apply ws3_lead in H. unfold JsString.ws1.
  destruct H as [-> | [-> | [-> | ->]]]; reflexivity.
Qed.

Lemma ws3_not_ws2 (a b c : ascii) : JsString.ws3 a b c = true -> JsString.ws2 a b = false.
Proof.
  intros H. apply ws3_lead in H. unfold JsString.ws2.
  destruct H as [-> | [-> | [-> | ->]]]; reflexivity.
Qed.

Lemma trimStart_WhiteSpaceOnly (s : string) :
  JsString.WhiteSpaceOnly s -> JsString.trimStart s = EmptyString.
Proof.
  induction 1 as [|a s Ha _ IH|a b s Hab _ IH|a b c s Habc _ IH].
  - reflexivity.
  - cbn. rewrite Ha. exact IH.
  - cbn. rewrite (ws2_not_ws1 a b Hab), Hab. exact IH.
  - cbn. rewrite (ws3_not_ws1 a b c Habc), (ws3_not_ws2 a b c Habc), Habc. exact IH.
Qed.

Lemma trim_WhiteSpaceOnly (s : string) :
  JsString.WhiteSpaceOnly s -> JsString.trim s = EmptyString.
Proof.
  intros H. unfold JsString.trim. rewrite (trimStart_WhiteSpaceOnly s H). reflexivity.
Qed.

End StringFacts.

(* ================================================================== *)
(** * Decimal digits *)
(* ================================================================== *)

Section Digits.

Lemma parse_digits_acc (d : Decimal.uint) (acc : positive) :
  JsNumber.parse_digits (NilEmpty.string_of_uint d) (Zpos acc)
  = Zpos (Pos.of_uint_acc d acc).
Proof.
  revert acc.
  induction d; intros acc;
    cbn [NilEmpty.string_of_uint JsNumber.parse_digits Pos.of_uint_acc];
    [reflexivity | ..];
    match goal with
    | |- JsNumber.parse_digits _ ?a = Z.pos (Pos.of_uint_acc _ ?b) =>
        replace a with (Z.pos b) by (cbn; lia)
    end; apply IHd.
Qed.

Lemma parse_digits_uint (d : Decimal.uint) :
  JsNumber.parse_digits (NilEmpty.string_of_uint d) 0 = Z.of_N (Pos.of_uint d).
Proof.
  induction d; cbn [NilEmpty.string_of_uint JsNumber.parse_digits Pos.of_uint];
    [reflexivity | exact IHd | ..];
    match goal with
    | |- JsNumber.parse_digits _ ?a = _ =>
        let v := eval vm_compute in a in change a with v
    end; rewrite parse_digits_acc; reflexivity.
Qed.

Lemma parseInt_decimal (n : N) : JsNumber.parseInt (JsNumber.decimal n) = Z.of_N n.
Proof.
  unfold JsNumber.parseInt, JsNumber.decimal. rewrite parse_digits_uint.
  f_equal. apply DecimalN.Unsigned.of_to.
Qed.

Lemma all_digits_uint (d : Decimal.uint) :
  JsNumber.all_digits (NilEmpty.string_of_uint d) = true.
Proof. induction d; cbn; auto. Qed.

Lemma decimal_truthy (n : N) : JsString.truthy (JsNumber.decimal n) = true.
Proof.
  apply truthy_true. intros H.
  pose proof (parseInt_decimal n) as P. rewrite H in P. cbn in P.
  destruct n as [|p]; [discriminate H|discriminate P].
Qed.

Lemma test_digits_decimal (n : N) : JsNumber.test_digits (JsNumber.decimal n) = true.
Proof.
  unfold JsNumber.test_digits. rewrite decimal_truthy. apply all_digits_uint.
Qed.

Lemma toString_small (p : Z) :
  (0 <= p < 10 ^ 21)%Z -> JsNumber.toString p = JsNumber.decimal (Z.to_N p).
Proof.
  intros [H0 H1]. unfold JsNumber.toString.
  replace (p <? 0)%Z with false by (symmetry; apply Z.ltb_ge; exact H0).
  rewrite Z.abs_eq by exact H0.
  replace (Z.to_N p <? 10 ^ 21)%N with true; [reflexivity|].
  symmetry. apply N.ltb_lt. lia.
Qed.

End Digits.

(* ================================================================== *)
(** * Facts about query strings *)
(* ================================================================== *)

Section QueryStrings.

Lemma no_char_app (d : ascii) (a b : string) :
  no_char d (a +:+ b) = no_char d a && no_char d b.
Proof.
  induction a as [|x a IH]; [reflexivity|].
  rewrite app_cons. cbn [no_char]. rewrite IH. apply andb_assoc.
Qed.

Lemma no_char_encode_byte (d c : ascii) :
  separator d = true -> no_char d (Url.encode_byte c) = true.
Proof.
  unfold separator. rewrite !orb_true_iff, !Ascii.eqb_eq.
  intros [[[-> | ->] | ->] | ->]; by_bytes c.
Qed.

Lemma no_char_encode (d : ascii) (s : string) :
  separator d = true -> no_char d (Url.encode s) = true.
Proof.
  intros Hd. induction s as [|c s IH]; cbn [Url.encode]; [reflexivity|].
  rewrite no_char_app, IH, no_char_encode_byte by exact Hd. reflexivity.
Qed.

Lemma decode_encode_byte (c : ascii) (r : string) :
  Url.decode (Url.encode_byte c +:+ r) = String c (Url.decode r).
Proof. by_bytes c. Qed.

Lemma decode_encode (s : string) : Url.decode (Url.encode s) = s.
Proof.
  induction s as [|c s IH]; [reflexivity|].
  cbn [Url.encode]. rewrite decode_encode_byte, IH. reflexivity.
Qed.

Lemma split_on_no_char (d : ascii) (a : string) :
  no_char d a = true -> Url.split_on d a = [a].
Proof.
  induction a as [|c a IH]; cbn; [reflexivity|].
  rewrite andb_true_iff, negb_true_iff. intros [-> H]. rewrite (IH H). reflexivity.
Qed.

Lemma split_on_app (d : ascii) (a b : string) :
  no_char d a = true -> Url.split_on d (a +:+ String d b) = a :: Url.split_on d b.
Proof.
  induction a as [|c a IH]; rewrite ?app_cons; cbn [Url.split_on no_char].
  - intros _. change (EmptyString +:+ String d b) with (String d b).
    cbn [Url.split_on]. rewrite Ascii.eqb_refl. reflexivity.
  - rewrite andb_true_iff, negb_true_iff. intros [-> H]. rewrite (IH H). reflexivity.
Qed.

Lemma break_at_no_char (d : ascii) (a : string) :
  no_char d a = true -> Url.break_at d a = (a, None).
Proof.
  induction a as [|c a IH]; cbn; [reflexivity|].
  rewrite andb_true_iff, negb_true_iff. intros [-> H]. rewrite (IH H). reflexivity.
Qed.

Lemma break_at_app (d : ascii) (a b : string) :
  no_char d a = true -> Url.break_at d (a +:+ String d b) = (a, Some b).
Proof.
  induction a as [|c a IH]; rewrite ?app_cons; cbn [Url.break_at no_char].
  - intros _. change (EmptyString +:+ String d b) with (String d b).
    cbn [Url.break_at]. rewrite Ascii.eqb_refl. reflexivity.
  - rewrite andb_true_iff, negb_true_iff. intros [-> H]. rewrite (IH H). reflexivity.
Qed.

Lemma piece_app_truthy (n v r : string) : JsString.truthy (piece n v +:+ r) = true.
Proof. unfold piece. destruct (Url.encode n); reflexivity. Qed.

Lemma piece_truthy (n v : string) : JsString.truthy (piece n v) = true.
Proof. rewrite <- (app_empty_r (piece n v)). apply piece_app_truthy. Qed.

Lemma piece_no_char (d : ascii) (n v : string) :
  separator d = true -> Ascii.eqb d "=" = false -> no_char d (piece n v) = true.
Proof.
  intros Hd He. unfold piece. rewrite !no_char_app, !no_char_encode by exact Hd.
  cbn [no_char]. rewrite Ascii.eqb_sym, He. reflexivity.
Qed.

Lemma parse_pair_piece (n v : string) : Url.parse_pair (piece n v) = (n, v).
Proof.
  unfold Url.parse_pair, piece.
  change (Url.encode n +:+ "=" +:+ Url.encode v)
    with (Url.encode n +:+ String "=" (Url.encode v)).
  rewrite break_at_app by (apply no_char_encode; reflexivity).
  cbn [default from_option]. unfold id. rewrite !decode_encode. reflexivity.
Qed.

Lemma toString_cons (n v : string) (t : Url.SearchParams) :
  Url.toString ((n, v) :: t)
  = match t with
    | [] => piece n v
    | _ :: _ => piece n v +:+ String "&" (Url.toString t)
    end.
Proof.
  destruct t as [|[n' v'] t]; cbn [Url.toString]; unfold piece.
  - reflexivity.
  - rewrite !string_app_assoc. reflexivity.
Qed.

(** Parsing inverts serialization, whatever the names and values hold. *)
Lemma parse_toString (l : Url.SearchParams) : Url.parse (Url.toString l) = l.
Proof.
  induction l as [|[n v] t IH]; [reflexivity|].
  rewrite toString_cons. destruct t as [|p t].
  - unfold Url.parse. rewrite split_on_no_char by (apply piece_no_char; reflexivity).
    cbn [List.filter]. rewrite piece_truthy. cbn [List.map].
    rewrite parse_pair_piece. reflexivity.
  - unfold Url.parse in *. rewrite split_on_app by (apply piece_no_char; reflexivity).
    cbn [List.filter]. rewrite piece_truthy.
    cbn [List.map]. rewrite parse_pair_piece, IH. reflexivity.
Qed.

Lemma no_char_toString (d : ascii) (l : Url.SearchParams) :
  separator d = true -> Ascii.eqb d "=" = false -> Ascii.eqb d "&" = false ->
  no_char d (Url.toString l) = true.
Proof.
  intros Hd He Ha. induction l as [|[n v] t IH]; [reflexivity|].
  rewrite toString_cons. destruct t as [|p t].
  - apply piece_no_char; assumption.
  - rewrite no_char_app, piece_no_char by assumption.
    cbn [no_char andb]. rewrite Ascii.eqb_sym, Ha, IH. reflexivity.
Qed.

Lemma toString_truthy (l : Url.SearchParams) :
  JsString.truthy (Url.toString l) = negb (bool_decide (l = [])).
Proof.
  destruct l as [|[n v] t]; [reflexivity|].
  rewrite toString_cons. destruct t.
  - rewrite piece_truthy. reflexivity.
  - rewrite piece_app_truthy. reflexivity.
Qed.

Lemma query_of_href (qs : string) :
  no_char "#" qs = true -> Url.query_of ("/?" +:+ qs) = qs.
Proof.
  intros H. unfold Url.query_of.
  rewrite (break_at_no_char "#" ("/?" +:+ qs)) by exact H. reflexivity.
Qed.

End QueryStrings.

(* ================================================================== *)
(** * The pagination link and the normalizer *)
(* ================================================================== *)

Section Links.

Lemma buildHref_params (p : Z) (q : option string) (sem : bool) :
  buildHref p q sem
  = if JsString.truthy (Url.toString (href_params p q sem))
    then "/?" +:+ Url.toString (href_params p q sem)
    else "/".
Proof.
  unfold buildHref, href_params.
  destruct q as [s|]; [destruct (JsString.truthy s)|]; destruct sem; destruct (1 <? p)%Z;
    reflexivity.
Qed.

Lemma searchParams_of_buildHref (p : Z) (q : option string) (sem : bool) :
  searchParams_of_href (buildHref p q sem) = record_of (href_params p q sem).
Proof.
  rewrite buildHref_params, toString_truthy. unfold searchParams_of_href.
  destruct (href_params p q sem) as [|x l] eqn:E.
  - reflexivity.
  - rewrite bool_decide_eq_false_2 by discriminate. cbn [negb].
    rewrite query_of_href by (apply no_char_toString; reflexivity).
    rewrite parse_toString. reflexivity.
Qed.

Lemma record_of_href_params (p : Z) (q : option string) (sem : bool) :
  let m := record_of (href_params p q sem) in
  m !! "query" = (match q with
                  | Some s => if JsString.truthy s then Some (RawString s) else None
                  | None => None
                  end)
  /\ m !! "semanticSearch" = (if sem then Some (RawString "1") else None)
  /\ m !! "page" = (if (1 <? p)%Z then Some (RawString (JsNumber.toString p)) else None).
Proof.
  unfold href_params.
  destruct q as [s|]; [destruct (JsString.truthy s)|]; destruct sem; destruct (1 <? p)%Z;
    cbn [app]; generalize (JsNumber.toString p); intros;
    repeat split; vm_compute; reflexivity.
Qed.




(** C9: [parseParams] is total: every raw record yields a descriptor, whose
    page is at least 1 and whose text is absent or non-empty.  A page value
    that is not a string, does not match [^\d+$] or parses below 1 yields
    page 1; a missing, empty-array, empty or white-space-only query yields
    an absent text; an array-valued query yields its first element trimmed
    (absent when nothing is left of it). *)
Theorem parseParams_permissive (raw : gmap string RawValue) :
  let pp := parseParams raw in
  (1 <= ParsedParams.page pp)%Z
  /\ (ParsedParams.q pp = None \/ exists s, ParsedParams.q pp = Some s /\ s <> EmptyString)
  /\ (match raw !! "page" with
      | Some (RawString s) => JsNumber.test_digits s = false \/ (JsNumber.parseInt s < 1)%Z
      | _ => True
      end -> ParsedParams.page pp = 1%Z)
  /\ ((raw !! "query" = None
       \/ raw !! "query" = Some (RawArray [])
       \/ exists s, raw !! "query" = Some (RawString s) /\ JsString.WhiteSpaceOnly s)
      -> ParsedParams.q pp = None)
  /\ (forall first others,
        raw !! "query" = Some (RawArray (first :: others)) ->
        ParsedParams.q pp
        = if JsString.truthy (JsString.trim first) then Some (JsString.trim first) else None).
Proof.
  intros pp. subst pp. unfold parseParams. cbn [ParsedParams.page ParsedParams.q].
  split; [|split; [|split; [|split]]].
  - destruct (1 <=? _)%Z eqn:E; [apply Z.leb_le in E; exact E | lia].
  - rewrite length_pos_truthy.
    destruct (JsString.truthy _) eqn:E; [right|left; reflexivity].
    eexists. split; [reflexivity|]. apply truthy_true. exact E.
  - destruct (raw !! "page") as [[s|l]|]; try reflexivity.
    intros [H|H].
    + rewrite H. reflexivity.
    + destruct (JsNumber.test_digits s); [|reflexivity].
      destruct (1 <=? JsNumber.parseInt s)%Z eqn:E; [apply Z.leb_le in E; lia|reflexivity].
  - intros [H|[H|(s & H & Hws)]]; rewrite H; try reflexivity.
    rewrite (trim_WhiteSpaceOnly s Hws). reflexivity.
  - intros first others H. rewrite H. cbn [List.hd]. rewrite length_pos_truthy. reflexivity.
Qed.

(** Page ["-3"] and page ["0"], a blank query (space, tab, no-break space),
    an empty array and an array of two texts. *)
Lemma parseParams_permissive_witness :
  (JsNumber.test_digits "-3" = false \/ (JsNumber.parseInt "-3" < 1)%Z)
  /\ ParsedParams.page (parseParams (<["page" := RawString "-3"]> ∅)) = 1%Z
  /\ (JsNumber.test_digits "0" = false \/ (JsNumber.parseInt "0" < 1)%Z)
  /\ ParsedParams.page (parseParams (<["page" := RawString "0"]> ∅)) = 1%Z
  /\ JsString.WhiteSpaceOnly Sample.blank
  /\ ParsedParams.q (parseParams (<["query" := RawString Sample.blank]> ∅)) = None
  /\ ParsedParams.q (parseParams (<["query" := RawArray []]> ∅)) = None
  /\ ParsedParams.q (parseParams (<["query" := RawArray [" sea view "; "loft"]]> ∅))
     = Some "sea view".
Proof.
  assert (JsNumber.test_digits "-3" = false \/ (JsNumber.parseInt "-3" < 1)%Z) as H1
    by (left; reflexivity).
  assert (JsNumber.test_digits "0" = false \/ (JsNumber.parseInt "0" < 1)%Z) as H2
    by (right; vm_compute; reflexivity).
  assert (JsString.WhiteSpaceOnly Sample.blank) as H3.
  { apply JsString.wso_1; [reflexivity|]. apply JsString.wso_1; [reflexivity|].
    apply JsString.wso_2; [reflexivity|]. apply JsString.wso_nil. }
  split; [exact H1|]. split.
  { apply (proj1 (proj2 (proj2 (parseParams_permissive (<["page" := RawString "-3"]> ∅))))).
    exact H1. }
  split; [exact H2|]. split.
  { apply (proj1 (proj2 (proj2 (parseParams_permissive (<["page" := RawString "0"]> ∅))))).
    exact H2. }
  split; [exact H3|]. split.
  { apply (proj1 (proj2 (proj2 (proj2
             (parseParams_permissive (<["query" := RawString Sample.blank]> ∅)))))).
    right. right. eexists. split; [reflexivity|exact H3]. }
  split.
  { apply (proj1 (proj2 (proj2 (proj2
             (parseParams_permissive (<["query" := RawArray []]> ∅)))))).
    right. left. reflexivity. }
  exact (proj2 (proj2 (proj2 (proj2 (parseParams_permissive
            (<["query" := RawArray [" sea view "; "loft"]]> ∅))))) " sea view " ["loft"] eq_refl).
Defined.

End Links.

(* ================================================================== *)
(** * The vector fallback *)
(* ================================================================== *)

Section Fallback.

Lemma typeof_string (v : JsValue) :
  String.eqb (Js.typeof v) "string" = true <-> exists s, v = JsString s.
Proof.
  destruct v; cbn; split; try discriminate; try (intros [s0 Hs]; discriminate); eauto.
Qed.

Lemma typeof_number (v : JsValue) :
  String.eqb (Js.typeof v) "number" = true <-> exists x, v = JsNumber x.
Proof.
  destruct v; cbn; split; try discriminate; try (intros [s0 Hs]; discriminate); eauto.
Qed.

Lemma isApartmentMetadata_fields (val : JsValue) :
  isApartmentMetadata val = true <->
  (String.eqb (Js.typeof (Js.prop val "id")) "string" = true
   /\ String.eqb (Js.typeof (Js.prop val "name")) "string" = true
   /\ String.eqb (Js.typeof (Js.prop val "imageId")) "string" = true
   /\ String.eqb (Js.typeof (Js.prop val "price")) "number" = true).
Proof.
  unfold isApartmentMetadata.
  destruct val as [| |b|x|s|l|fields].
  - cbn. split; [discriminate|intros (H & _); discriminate].
  - cbn. split; [discriminate|intros (H & _); discriminate].
  - cbn. split; [destruct b; discriminate|intros (H & _); discriminate].
  - cbn [Js.truthy Js.typeof]. cbn. rewrite orb_true_r.
    split; [discriminate|intros (H & _); discriminate].
  - cbn [Js.truthy Js.typeof]. cbn. rewrite orb_true_r.
    split; [discriminate|intros (H & _); discriminate].
  - cbn. split; [discriminate|intros (H & _); discriminate].
  - replace (negb (Js.truthy (JsObject fields))
             || negb (String.eqb (Js.typeof (JsObject fields)) "object"))
      with false by reflexivity.
    rewrite !andb_true_iff. tauto.
Qed.

(** On an accepted value the cast reads the four typed fields as they are. *)
Lemma asApartment_exact (val : JsValue) :
  isApartmentMetadata val = true ->
  Js.prop val "id" = JsString (Apartment.id (asApartment val))
  /\ Js.prop val "name" = JsString (Apartment.name (asApartment val))
  /\ Js.prop val "imageId" = JsString (Apartment.imageId (asApartment val))
  /\ Js.prop val "price" = JsNumber (Apartment.price (asApartment val))
  /\ Js.prop val "description" = Apartment.description (asApartment val).
Proof.
  rewrite isApartmentMetadata_fields. intros (H1 & H2 & H3 & H4).
  apply typeof_string in H1, H2, H3. apply typeof_number in H4.
  destruct H1 as [i Hi], H2 as [n Hn], H3 as [im Him], H4 as [p Hp].
  unfold asApartment. cbn [Apartment.id Apartment.name Apartment.imageId Apartment.price
                             Apartment.description].
  rewrite Hi, Hn, Him, Hp. auto.
Qed.

Lemma fetchSemanticFallback_result (index : Index) (q : string) (existingIds : gset string) :
  result (fetchSemanticFallback index q existingIds)
  = List.map (fun ri => asApartment (QueryResult.metadata (fst ri)))
      (fallback_survivors index q existingIds).
Proof.
  unfold fallback_survivors, fallback_valid, fetchSemanticFallback, index_query,
    bind, result, ret.
  cbn [fst snd].
  destruct (valid_candidates existingIds (query index q PAGE_SIZE)); reflexivity.
Qed.

Lemma In_imap_pair {A} (l : list A) (x : A) (i : nat) :
  In (x, i) (imap (fun j y => (y, j)) l) <-> l !! i = Some x.
Proof.
  rewrite <- list_elem_of_In, list_elem_of_lookup. split.
  - intros [j Hj]. rewrite list_lookup_imap in Hj.
    destruct (l !! j) as [y|] eqn:E; cbn in Hj; [|discriminate].
    injection Hj as -> ->. exact E.
  - intros H. exists i. rewrite list_lookup_imap, H. reflexivity.
Qed.

Lemma In_rank_filter (baseMin : float) (valid : list QueryResult.t)
    (r : QueryResult.t) (i : nat) :
  In (r, i) (rank_filter baseMin valid) <->
  valid !! i = Some r
  /\ (Js.Math_min 1 (baseMin + Js.of_index i * RANK_INCREMENT)
      <=? QueryResult.score r)%float = true.
Proof.
  unfold rank_filter. rewrite List.filter_In, In_imap_pair. reflexivity.
Qed.

Lemma filter_imap_sorted {A} (f : A * nat -> bool) (l : list A) (k : nat) :
  StronglySorted lt (List.map snd (List.filter f (imap (fun j y => (y, k + j)) l)))
  /\ Forall (fun n => k <= n)
       (List.map snd (List.filter f (imap (fun j y => (y, k + j)) l))).
Proof.
  revert k. induction l as [|x l IH]; intros k.
  - cbn. split; constructor.
  - rewrite imap_cons.
    rewrite (imap_ext _ (fun j y => (y, S k + j))) by (intros; cbn; f_equal; lia).
    destruct (IH (S k)) as [IHs IHf].
    cbn [List.filter]. destruct (f (x, k + 0)).
    + cbn [List.map snd]. split.
      * constructor; [exact IHs|].
        eapply Forall_impl; [exact IHf|]. cbn. intros; lia.
      * constructor; [lia|]. eapply Forall_impl; [exact IHf|]. cbn. intros; lia.
    + split; [exact IHs|]. eapply Forall_impl; [exact IHf|]. cbn. intros; lia.
Qed.

Lemma rank_filter_sorted (baseMin : float) (valid : list QueryResult.t) :
  StronglySorted lt (List.map snd (rank_filter baseMin valid)).
Proof. apply (filter_imap_sorted _ valid 0). Qed.

Lemma sublist_List_filter {A} (f : A -> bool) (l : list A) : sublist (List.filter f l) l.
Proof.
  induction l as [|x l IH]; cbn.
  - constructor.
  - destruct (f x); [apply sublist_skip | apply sublist_cons]; exact IH.
Qed.

Lemma map_fst_imap_pair {A} (l : list A) (k : nat) :
  List.map fst (imap (fun j y => (y, k + j)) l) = l.
Proof.
  revert k. induction l as [|x l IH]; intros k; [reflexivity|].
  rewrite imap_cons. cbn [List.map fst]. f_equal.
  rewrite (imap_ext _ (fun j y => (y, S k + j))) by (intros; cbn; f_equal; lia).
  apply IH.
Qed.

Lemma rank_filter_sublist (baseMin : float) (valid : list QueryResult.t) :
  sublist (List.map fst (rank_filter baseMin valid)) valid.
Proof.
  unfold rank_filter.
  rewrite <- (map_fst_imap_pair valid 0) at 2.
  apply (fmap_sublist fst). apply sublist_List_filter.
Qed.

Lemma fallback_survivors_sublist (index : Index) (q : string) (existingIds : gset string) :
  sublist (List.map fst (fallback_survivors index q existingIds)) (query index q PAGE_SIZE).
Proof.
  unfold fallback_survivors.
  destruct (fallback_valid index q existingIds) as [|first rest] eqn:E.
  - apply sublist_nil_l.
  - rewrite <- E. etrans; [apply rank_filter_sublist|].
    apply sublist_List_filter.
Qed.

Lemma fetchSemanticFallback_sublist (index : Index) (q : string) (existingIds : gset string) :
  sublist (result (fetchSemanticFallback index q existingIds))
    (List.map (fun r => asApartment (QueryResult.metadata r)) (query index q PAGE_SIZE)).
Proof.
  rewrite fetchSemanticFallback_result.
  rewrite <- (List.map_map fst (fun r => asApartment (QueryResult.metadata r))).
  apply (fmap_sublist (fun r => asApartment (QueryResult.metadata r))).
  apply fallback_survivors_sublist.
Qed.




End Fallback.

(* ================================================================== *)
(** * The shape guard and the rank filter *)
(* ================================================================== *)

Section RankFilter.

(** C10: [isApartmentMetadata] accepts exactly the objects whose [id],
    [name] and [imageId] are strings and whose [price] is a number.  It
    never reads [description]: objects that agree on the four fields are
    judged alike, whatever they hold under any other key, so putting any
    value of any type in front as [description] changes nothing; and an
    accepted candidate is surfaced with the description its metadata has
    (here as the only candidate, with score 0.9). *)
Theorem isApartmentMetadata_ignores_description (val : JsValue) :
  (isApartmentMetadata val = true <->
   exists fields i n im p,
     val = JsObject fields
     /\ Js.lookup_field "id" fields = JsString i
     /\ Js.lookup_field "name" fields = JsString n
     /\ Js.lookup_field "imageId" fields = JsString im
     /\ Js.lookup_field "price" fields = JsNumber p)
  /\ (forall fields fields',
        Js.lookup_field "id" fields = Js.lookup_field "id" fields' ->
        Js.lookup_field "name" fields = Js.lookup_field "name" fields' ->
        Js.lookup_field "imageId" fields = Js.lookup_field "imageId" fields' ->
        Js.lookup_field "price" fields = Js.lookup_field "price" fields' ->
        isApartmentMetadata (JsObject fields) = isApartmentMetadata (JsObject fields'))
  /\ (forall fields d,
        isApartmentMetadata (JsObject (("description", d) :: fields))
        = isApartmentMetadata (JsObject fields))
  /\ (forall fields vid q,
        isApartmentMetadata (JsObject fields) = true ->
        result (fetchSemanticFallback
                  (Sample.index_of
                     [QueryResult.mk (QueryResult.IdString vid) 0.9 (JsObject fields)])
                  q ∅)
        = [asApartment (JsObject fields)]
        /\ Apartment.description (asApartment (JsObject fields))
           = Js.lookup_field "description" fields).
Proof.
  split; [|split; [|split]].
  - rewrite isApartmentMetadata_fields. split.
    + intros (H1 & H2 & H3 & H4).
      apply typeof_string in H1, H2, H3. apply typeof_number in H4.
      destruct H1 as [i Hi], H2 as [n Hn], H3 as [im Him], H4 as [p Hp].
      destruct val; try discriminate Hi.
      exists fields, i, n, im, p. cbn in *. auto.
    + intros (fields & i & n & im & p & -> & Hi & Hn & Him & Hp).
      cbn [Js.prop]. rewrite Hi, Hn, Him, Hp. cbn. auto.
  - intros fields fields' Hi Hn Him Hp.
    unfold isApartmentMetadata. cbn [Js.truthy Js.typeof Js.prop].
    rewrite Hi, Hn, Him, Hp. reflexivity.
  - intros fields d. reflexivity.
  - intros fields vid q Hshape. split; [|reflexivity].
    unfold fetchSemanticFallback, index_query, bind, result, ret, Sample.index_of.
    cbn [fst snd query]. unfold valid_candidates.
    cbn [List.filter QueryResult.id QueryResult.metadata].
    rewrite Hshape. rewrite bool_decide_eq_false_2 by apply not_elem_of_empty.
    cbn [negb andb].
    unfold rank_filter. cbn [imap List.filter fst snd QueryResult.score].
    replace ((Js.Math_min 1
                (Js.Math_max ABSOLUTE_MIN (0.9 - SCORE_DROP_TOLERANCE)
                 + Js.of_index 0 * RANK_INCREMENT) <=? 0.9)%float)
      with true by (vm_compute; reflexivity).
    reflexivity.
Qed.

(** Metadata without a description, and metadata with a number as
    description, are accepted and surfaced as they are. *)
Lemma isApartmentMetadata_ignores_description_witness :
  isApartmentMetadata Sample.bare = true
  /\ List.map Apartment.description
       (result (fetchSemanticFallback
                  (Sample.index_of
                     [QueryResult.mk (QueryResult.IdString "4") 0.9 Sample.bare])
                  "loft" ∅))
     = [JsUndefined]
  /\ isApartmentMetadata Sample.odd_description = true
  /\ List.map Apartment.description
       (result (fetchSemanticFallback
                  (Sample.index_of
                     [QueryResult.mk (QueryResult.IdString "4") 0.9 Sample.odd_description])
                  "loft" ∅))
     = [JsNumber 7].
Proof.
  assert (isApartmentMetadata (JsObject Sample.bare_fields) = true) as Hb by reflexivity.
  assert (isApartmentMetadata (JsObject Sample.odd_fields) = true) as Ho by reflexivity.
  split; [exact Hb|]. split.
  - destruct (proj2 (proj2 (proj2 (isApartmentMetadata_ignores_description JsNull)))
                Sample.bare_fields "4" "loft" Hb) as [E _].
    unfold Sample.bare. rewrite E. reflexivity.
  - split; [exact Ho|].
    destruct (proj2 (proj2 (proj2 (isApartmentMetadata_ignores_description JsNull)))
                Sample.odd_fields "4" "loft" Ho) as [E _].
    unfold Sample.odd_description. rewrite E. reflexivity.
Defined.

(** C3: with [ABSOLUTE_MIN = 0.5], [SCORE_DROP_TOLERANCE = 0.15] and
    [RANK_INCREMENT = 0.1], [fetchSemanticFallback] returns the items of
    the survivors, and a candidate at position [i] of [valid] (the
    candidates left by the identifier and shape filter, in the order
    received) is a survivor exactly when its score is at least
    [min(1, max(0.5, bestScore - 0.15) + i * 0.1)], [bestScore] being the
    score of the candidate at position 0.  Survivors keep their order.  For
    the scores 0.9, 0.95, 0.85, 0.3 the survivors are the positions 0 and 1. *)
Theorem rank_filter_threshold (index : Index) (q : string) (existingIds : gset string) :
  let valid := fallback_valid index q existingIds in
  let survivors := fallback_survivors index q existingIds in
  ABSOLUTE_MIN = 0.5%float /\ SCORE_DROP_TOLERANCE = 0.15%float
  /\ RANK_INCREMENT = 0.1%float
  /\ result (fetchSemanticFallback index q existingIds)
     = List.map (fun ri => asApartment (QueryResult.metadata (fst ri))) survivors
  /\ (forall i r,
        In (r, i) survivors <->
        valid !! i = Some r
        /\ exists first, valid !! 0 = Some first
           /\ (rank_threshold (QueryResult.score first) i
               <=? QueryResult.score r)%float = true)
  /\ StronglySorted lt (List.map snd survivors)
  /\ List.map QueryResult.score (fallback_valid Sample.four_scores q ∅)
     = [0.9; 0.95; 0.85; 0.3]%float
  /\ List.map snd (fallback_survivors Sample.four_scores q ∅) = [0; 1].
Proof.
  intros valid survivors.
  split; [reflexivity|]. split; [reflexivity|]. split; [reflexivity|].
  split; [apply fetchSemanticFallback_result|].
  subst survivors. unfold fallback_survivors. fold valid.
  split; [|split; [|split]].
  - intros i r. destruct valid as [|first rest] eqn:Ev.
    + split; [intros []|]. intros [H _]. discriminate.
    + rewrite In_rank_filter. split.
      * intros [Hl Ht]. split; [exact Hl|]. exists first. split; [reflexivity|exact Ht].
      * intros [Hl (f & Hf & Ht)]. injection Hf as <-. split; [exact Hl|exact Ht].
  - destruct valid; [constructor|]. apply rank_filter_sorted.
  - vm_compute. reflexivity.
  - vm_compute. reflexivity.
Qed.

End RankFilter.

(* ================================================================== *)
(** * The orchestrator *)
(* ================================================================== *)

Section Orchestrator.

Variable db : Db.
Variable index : Index.
Variable raw : gmap string RawValue.

Let pp := parseParams raw.
Let rows := List.map DbRow.apartment (Home_rows db raw).
Let extras := Home_semanticExtras db index raw.

Lemma parseParams_q_truthy (s : string) :
  ParsedParams.q (parseParams raw) = Some s -> JsString.truthy s = true.
Proof.
  unfold parseParams; cbn [ParsedParams.q].
  rewrite length_pos_truthy.
  destruct (JsString.truthy _) eqn:E; [ | discriminate ].
  intros [= <-]. exact E.
Qed.

Lemma Home_unfold :
  result (Home db index raw) =
    SearchResult.mk (firstn PAGE_SIZE (rows ++ extras))
      (PAGE_SIZE <? length (rows ++ extras))%nat
      (Home_dbTotal db raw + length extras)%nat
      (if (1 <? ParsedParams.page pp)%Z
       then buildHref (ParsedParams.page pp - 1) (ParsedParams.q pp)
              (ParsedParams.semanticSearch pp)
       else "#")
      (buildHref (ParsedParams.page pp) (ParsedParams.q pp) (ParsedParams.semanticSearch pp))
      (if (PAGE_SIZE <? length (rows ++ extras))%nat
       then buildHref (ParsedParams.page pp + 1) (ParsedParams.q pp)
              (ParsedParams.semanticSearch pp)
       else "#").
Proof.
  subst rows extras.
  unfold Home_semanticExtras, Home_gate, Home_dbTotal, Home_rows, Home. fold pp.
  unfold bind, result, ret. cbn [fst snd].
  destruct (ParsedParams.q pp) as [text|] eqn:Eq; cbn [truthy_q default from_option].
  - destruct (ParsedParams.semanticSearch pp && JsString.truthy text && _) eqn:G;
      reflexivity.
  - rewrite andb_false_r. reflexivity.
Qed.

Lemma Home_calls :
  calls (Home db index raw) =
    calls (fetchFromDb db (ParsedParams.q pp) (ParsedParams.page pp))
    ++ (if Home_gate db raw
        then [IndexQuery (default EmptyString (ParsedParams.q pp)) PAGE_SIZE]
        else []).
Proof.
  unfold Home_gate, Home_rows, Home. fold pp.
  unfold bind at 1 2. unfold calls, result. cbn [fst snd].
  destruct (ParsedParams.q pp) as [text|] eqn:Eq; cbn [truthy_q default from_option].
  - destruct (_ && JsString.truthy text && _) eqn:G.
    + unfold fetchSemanticFallback, index_query, bind, ret. cbn [fst snd].
      destruct (valid_candidates _ _); cbn [fst snd]; rewrite ?app_nil_r; reflexivity.
    + unfold ret. cbn [fst snd]. rewrite ?app_nil_r. reflexivity.
  - rewrite andb_false_r. unfold ret. cbn [fst snd]. rewrite ?app_nil_r. reflexivity.
Qed.

Lemma index_calls_Home :
  index_calls (Home db index raw) =
    if Home_gate db raw
    then [IndexQuery (default EmptyString (ParsedParams.q pp)) PAGE_SIZE]
    else [].
Proof.
  unfold index_calls. rewrite Home_calls.
  rewrite List.filter_app.
  destruct (Home_gate db raw); reflexivity.
Qed.

Lemma Home_gate_spec :
  Home_gate db raw = true <->
  ParsedParams.semanticSearch pp = true
  /\ is_Some (ParsedParams.q pp)
  /\ length (Home_rows db raw) < PAGE_SIZE.
Proof.
  unfold Home_gate. fold pp. rewrite !andb_true_iff, Nat.ltb_lt.
  destruct (ParsedParams.q pp) as [text|] eqn:Eq; cbn [truthy_q].
  - rewrite (parseParams_q_truthy text Eq). split.
    + intros [[Hs _] Hl]. eauto.
    + intros (Hs & _ & Hl). auto.
  - split.
    + intros [[_ Hf] _]. discriminate.
    + intros (_ & Hq & _). destruct Hq as [x Hx]. discriminate.
Qed.

(** The page is the lexical rows that fit, then the semantic extras that
    still fit. *)
Lemma Home_items_split :
  SearchResult.items (result (Home db index raw))
  = firstn PAGE_SIZE rows ++ firstn (PAGE_SIZE - length rows) extras.
Proof. rewrite Home_unfold. cbn [SearchResult.items]. apply List.firstn_app. Qed.


(** C2: with [PAGE_SIZE = 3], [Home] queries the vector index if and only
    if the parsed semantic flag is true, the parsed text is present and the
    lexical fetch returned fewer than [PAGE_SIZE] rows; it then queries it
    once, with that text and [topK = PAGE_SIZE].  When the lexical fetch
    returned [PAGE_SIZE] rows or more, the index is not queried and nothing
    semantic is merged: the items are the first [PAGE_SIZE] lexical rows and
    the total is the lexical total. *)
Theorem fallback_invoked_iff :
  PAGE_SIZE = 3
  /\ (index_calls (Home db index raw) <> [] <->
        ParsedParams.semanticSearch (parseParams raw) = true
        /\ is_Some (ParsedParams.q (parseParams raw))
        /\ length (Home_rows db raw) < PAGE_SIZE)
  /\ (forall c, In c (index_calls (Home db index raw)) ->
        exists text,
          ParsedParams.q (parseParams raw) = Some text /\ c = IndexQuery text PAGE_SIZE)
  /\ length (index_calls (Home db index raw)) <= 1
  /\ (PAGE_SIZE <= length (Home_rows db raw) ->
        index_calls (Home db index raw) = []
        /\ Home_semanticExtras db index raw = []
        /\ SearchResult.items (result (Home db index raw))
           = firstn PAGE_SIZE (List.map DbRow.apartment (Home_rows db raw))
        /\ SearchResult.total (result (Home db index raw)) = Home_dbTotal db raw).
Proof.
  rewrite index_calls_Home.
  pose proof Home_gate_spec as G. fold pp in G |- *.
  split; [reflexivity|]. split; [|split; [|split]].
  - destruct (Home_gate db raw).
    + split; [intros _; apply G; reflexivity | intros _; discriminate].
    + split; [intros H; contradiction H; reflexivity
             | intros H; apply G in H; discriminate].
  - intros c Hc. destruct (Home_gate db raw); [|contradiction].
    destruct Hc as [<-|[]].
    destruct G as [G _]. destruct (G eq_refl) as (_ & [text Ht] & _).
    exists text. rewrite Ht. split; reflexivity.
  - destruct (Home_gate db raw); cbn; lia.
  - intros Hfull.
    assert (Home_gate db raw = false) as Hg.
    { destruct (Home_gate db raw); [|reflexivity].
      destruct G as [G _]. destruct (G eq_refl) as (_ & _ & Hlt). lia. }
    rewrite Home_unfold. cbn [SearchResult.items SearchResult.total].
    subst extras. unfold Home_semanticExtras. rewrite Hg.
    rewrite app_nil_r. cbn [length].
    split; [reflexivity|]. split; [reflexivity|]. split; [reflexivity|lia].
Qed.

(** C4: the items of [Home] are the first [PAGE_SIZE] elements of the
    lexical rows followed by the semantic extras: the lexical rows that fit
    and then, in their own order, the extras that still fit.  [hasNext] is
    true exactly when rows and extras together are more than [PAGE_SIZE].
    Two lexical rows and two extras give three items and [hasNext = true]. *)
Theorem merge_lexical_then_semantic :
  SearchResult.items (result (Home db index raw))
  = firstn PAGE_SIZE
      (List.map DbRow.apartment (Home_rows db raw) ++ Home_semanticExtras db index raw)
  /\ SearchResult.items (result (Home db index raw))
     = firstn PAGE_SIZE (List.map DbRow.apartment (Home_rows db raw))
       ++ firstn (PAGE_SIZE - length (Home_rows db raw)) (Home_semanticExtras db index raw)
  /\ (SearchResult.hasNext (result (Home db index raw)) = true <->
      PAGE_SIZE < length (Home_rows db raw) + length (Home_semanticExtras db index raw))
  /\ (length (Home_rows db raw) = 2 -> length (Home_semanticExtras db index raw) = 2 ->
      length (SearchResult.items (result (Home db index raw))) = 3
      /\ SearchResult.hasNext (result (Home db index raw)) = true).
Proof.
  fold extras. rewrite <- (length_map DbRow.apartment (Home_rows db raw)). fold rows.
  rewrite Home_items_split, Home_unfold. cbn [SearchResult.items SearchResult.hasNext].
  rewrite Nat.ltb_lt, length_app.
  split; [symmetry; apply List.firstn_app|]. split; [reflexivity|].
  split; [reflexivity|].
  intros Hr He. rewrite <- List.firstn_app, length_take, length_app, Hr, He.
  unfold PAGE_SIZE. lia.
Qed.

End Orchestrator.

(* ================================================================== *)
(** * What the fallback contributes to a page *)
(* ================================================================== *)

Section Contribution.

Variable db : Db.
Variable index : Index.
Variable raw : gmap string RawValue.

(** C5, amended: [fetchSemanticFallback] returns the items of the
    surviving candidates in the order received and does not truncate them
    to the shortfall: it returns at most as many items as the index
    returned candidates.  The cut happens when [Home] slices the merged
    list: the semantic extras that reach the items are the first
    [PAGE_SIZE - rows.length] of them, so at most that many. *)
Theorem fallback_untruncated :
  (forall q existingIds,
      sublist (result (fetchSemanticFallback index q existingIds))
        (List.map (fun r => asApartment (QueryResult.metadata r)) (query index q PAGE_SIZE))
      /\ length (result (fetchSemanticFallback index q existingIds))
         <= length (query index q PAGE_SIZE))
  /\ exists shown,
      SearchResult.items (result (Home db index raw))
      = firstn PAGE_SIZE (List.map DbRow.apartment (Home_rows db raw)) ++ shown
      /\ shown = firstn (PAGE_SIZE - length (Home_rows db raw))
                   (Home_semanticExtras db index raw)
      /\ length shown <= PAGE_SIZE - length (Home_rows db raw).
Proof.
  split.
  - intros q ids. pose proof (fetchSemanticFallback_sublist index q ids) as H.
    split; [exact H|]. apply sublist_length in H. rewrite length_map in H. exact H.
  - exists (firstn (PAGE_SIZE - length (Home_rows db raw)) (Home_semanticExtras db index raw)).
    split; [|split; [reflexivity|rewrite length_take; lia]].
    rewrite Home_items_split, length_map. reflexivity.
Qed.


End Contribution.

(* ================================================================== *)
(** * Requests *)
(* ================================================================== *)

(** A full lexical page leaves the index alone; a single row calls it. *)
Lemma fallback_invoked_iff_witness :
  PAGE_SIZE <= length (Home_rows Sample.three_rows Sample.loft)
  /\ index_calls (Home Sample.three_rows Sample.two_hits Sample.loft) = []
  /\ index_calls (Home Sample.one_row Sample.two_hits Sample.loft) <> [].
Proof.
  assert (PAGE_SIZE <= length (Home_rows Sample.three_rows Sample.loft)) as H
    by (vm_compute; lia).
  split; [exact H|]. split.
  - exact (proj1 (proj2 (proj2 (proj2 (proj2
             (fallback_invoked_iff Sample.three_rows Sample.two_hits Sample.loft)))) H)).
  - apply (proj1 (proj2 (fallback_invoked_iff Sample.one_row Sample.two_hits Sample.loft))).
    vm_compute. split; [reflexivity|]. split; [eauto|lia].
Defined.

(** Two lexical rows and two accepted semantic extras. *)
Lemma merge_lexical_then_semantic_witness :
  length (Home_rows Sample.two_rows Sample.loft) = 2
  /\ length (Home_semanticExtras Sample.two_rows Sample.two_hits Sample.loft) = 2
  /\ length (SearchResult.items (result (Home Sample.two_rows Sample.two_hits Sample.loft))) = 3
  /\ SearchResult.hasNext (result (Home Sample.two_rows Sample.two_hits Sample.loft)) = true.
Proof.
  assert (length (Home_rows Sample.two_rows Sample.loft) = 2) as Hr by reflexivity.
  assert (length (Home_semanticExtras Sample.two_rows Sample.two_hits Sample.loft) = 2)
    as He by reflexivity.
  split; [exact Hr|]. split; [exact He|].
  exact (proj2 (proj2 (proj2
           (merge_lexical_then_semantic Sample.two_rows Sample.two_hits Sample.loft))) Hr He).
Defined.

(** With two lexical rows the shortfall is one, and the fallback returns
    both of its hits. *)
Lemma fallback_exceeds_shortfall :
  length (Home_rows Sample.two_rows Sample.loft) = 2
  /\ length (result (fetchSemanticFallback Sample.two_hits "loft"
                       (list_to_set (List.map DbRow.id (Home_rows Sample.two_rows Sample.loft)))))
     = 2
  /\ length (Home_semanticExtras Sample.two_rows Sample.two_hits Sample.loft) = 2
  /\ ~ (length (Home_semanticExtras Sample.two_rows Sample.two_hits Sample.loft)
        <= PAGE_SIZE - length (Home_rows Sample.two_rows Sample.loft)).
Proof.
  vm_compute. split; [reflexivity|]. split; [reflexivity|]. split; [reflexivity|]. lia.
Qed.



(** C1 at two lexical rows and two accepted extras: one extra is on the
    page, and the total counts both. *)
Lemma total_counts_extras_beyond_cutoff :
  List.map Apartment.id
    (SearchResult.items (result (Home Sample.two_rows Sample.two_hits Sample.loft)))
  = ["1"; "2"; "7"]
  /\ List.map Apartment.id (Home_semanticExtras Sample.two_rows Sample.two_hits Sample.loft)
     = ["7"; "8"]
  /\ Home_dbTotal Sample.two_rows Sample.loft = 2
  /\ SearchResult.total (result (Home Sample.two_rows Sample.two_hits Sample.loft)) = 4.
Proof. vm_compute. repeat split. Qed.

(** C7 at page 2 of a store with one matching row: the page is empty and
    the total returned is 0, while one row matches. *)
Lemma dbTotal_of_empty_page :
  fst (result (fetchFromDb Sample.one_row (Some "loft") 2)) = []
  /\ snd (result (fetchFromDb Sample.one_row (Some "loft") 2)) = 0
  /\ total_matching Sample.one_row (Some "loft") = 1.
Proof. vm_compute. repeat split. Qed.

(* ================================================================== *)
(** * Further properties *)
(* ================================================================== *)

Section Further.

Variable db : Db.
Variable index : Index.
Variable raw : gmap string RawValue.

Lemma where_clause (q : option string) :
  List.filter
    (fun a => match q with
              | Some s => if JsString.truthy s then ts_match db s a else true
              | None => true
              end)
    (apartmentTable db)
  = match (if truthy_q q then q else None) with
    | Some s => List.filter (ts_match db s) (apartmentTable db)
    | None => apartmentTable db
    end.
Proof.
  assert (forall l : list Apartment.t, List.filter (fun _ => true) l = l) as Hall.
  { induction l as [|x l IH]; cbn; congruence. }
  destruct q as [s|]; cbn [truthy_q]; [|apply Hall].
  destruct (JsString.truthy s); [reflexivity|apply Hall].
Qed.

Lemma Home_rows_le_dbTotal : length (Home_rows db raw) <= Home_dbTotal db raw.
Proof.
  unfold Home_rows, Home_dbTotal, fetchFromDb, db_select, bind, ret, result.
  cbn [fst snd].
  destruct (firstn _ _) as [|a l] eqn:E; [cbn; lia|].
  cbn [List.map DbRow.total length]. rewrite length_map.
  apply (f_equal (@length _)) in E. rewrite length_take, length_drop in E.
  cbn [length] in E. lia.
Qed.

(** X1: the total of [Home] is the lexical total plus the number of all
    the semantic extras the fallback returned, and it is never smaller
    than the number of items on the page. *)
Theorem Home_total_formula :
  SearchResult.total (result (Home db index raw))
  = Home_dbTotal db raw + length (Home_semanticExtras db index raw)
  /\ length (SearchResult.items (result (Home db index raw)))
     <= SearchResult.total (result (Home db index raw)).
Proof.
  pose proof Home_rows_le_dbTotal as H.
  rewrite Home_unfold. cbn [SearchResult.total SearchResult.items].
  split; [reflexivity|].
  rewrite length_take, length_app, length_map. lia.
Qed.


(** X3: the semantic flag is true exactly when the raw value is the string
    ["1"]. *)
Theorem semanticSearch_literal :
  ParsedParams.semanticSearch (parseParams raw) = true
  <-> raw !! "semanticSearch" = Some (RawString "1").
Proof.
  unfold parseParams. cbn [ParsedParams.semanticSearch].
  destruct (raw !! "semanticSearch") as [[s|l]|]; try (split; discriminate).
  rewrite String.eqb_eq. split; [intros ->; reflexivity|intros [= ->]; reflexivity].
Qed.

(** X4: a page never holds more than [PAGE_SIZE] items, and when [hasNext]
    is false nothing was cut from it. *)
Theorem Home_items_bound :
  length (SearchResult.items (result (Home db index raw))) <= PAGE_SIZE
  /\ (SearchResult.hasNext (result (Home db index raw)) = false ->
      SearchResult.items (result (Home db index raw))
      = List.map DbRow.apartment (Home_rows db raw) ++ Home_semanticExtras db index raw).
Proof.
  rewrite Home_unfold. cbn [SearchResult.items SearchResult.hasNext]. split.
  - rewrite length_take. lia.
  - intros H. apply Nat.ltb_ge in H. apply firstn_all2. exact H.
Qed.

End Further.


Lemma Home_items_bound_witness :
  SearchResult.hasNext (result (Home Sample.one_row Sample.own_ids Sample.loft)) = false
  /\ List.map Apartment.id
       (SearchResult.items (result (Home Sample.one_row Sample.own_ids Sample.loft)))
     = ["1"; "5"].
Proof.
  assert (SearchResult.hasNext (result (Home Sample.one_row Sample.own_ids Sample.loft))
          = false) as H by reflexivity.
  split; [exact H|].
  rewrite (proj2 (Home_items_bound Sample.one_row Sample.own_ids Sample.loft) H).
  reflexivity.
Defined.

(* ================================================================== *)
(** * What [trim] removes *)
(* ================================================================== *)

Lemma trimStart_fixed (s : string) : leads_ws s = false -> JsString.trimStart s = s.
Proof.
  destruct s as [|a [|b [|c s3]]]; cbn; try reflexivity.
  - destruct (JsString.ws1 a); [discriminate|reflexivity].
  - destruct (JsString.ws1 a); [discriminate|]. cbn.
    destruct (JsString.ws2 a b); [discriminate|reflexivity].
  - destruct (JsString.ws1 a); [discriminate|]. cbn.
    destruct (JsString.ws2 a b); [discriminate|]. cbn.
    destruct (JsString.ws3 a b c); [discriminate|reflexivity].
Qed.

Lemma trimStart_spec (n : nat) (s : string) :
  String.length s <= n ->
  leads_ws (JsString.trimStart s) = false
  /\ exists p, JsString.WhiteSpaceOnly p /\ s = p +:+ JsString.trimStart s.
Proof.
  revert s. induction n as [|n IH]; intros s Hn.
  - destruct s; [|cbn in Hn; lia]. split; [reflexivity|].
    exists EmptyString. split; [constructor|reflexivity].
  - destruct s as [|a s1].
    { split; [reflexivity|]. exists EmptyString. split; [constructor|reflexivity]. }
    cbn [String.length] in Hn. cbn [JsString.trimStart].
    destruct (JsString.ws1 a) eqn:E1.
    { destruct (IH s1 ltac:(lia)) as [H1 (p & Hp & Hs)]. split; [exact H1|].
      exists (String a p). split; [constructor; assumption|].
      rewrite app_cons. f_equal. exact Hs. }
    destruct s1 as [|b s2].
    { split; [cbn; rewrite E1; reflexivity|].
      exists EmptyString. split; [constructor|reflexivity]. }
    cbn [String.length] in Hn.
    destruct (JsString.ws2 a b) eqn:E2.
    { destruct (IH s2 ltac:(lia)) as [H1 (p & Hp & Hs)]. split; [exact H1|].
      exists (String a (String b p)). split; [constructor; assumption|].
      rewrite !app_cons. do 2 f_equal. exact Hs. }
    destruct s2 as [|c s3].
    { split; [cbn; rewrite E1, E2; reflexivity|].
      exists EmptyString. split; [constructor|reflexivity]. }
    cbn [String.length] in Hn.
    destruct (JsString.ws3 a b c) eqn:E3.
    { destruct (IH s3 ltac:(lia)) as [H1 (p & Hp & Hs)]. split; [exact H1|].
      exists (String a (String b (String c p))). split; [constructor; assumption|].
      rewrite !app_cons. do 3 f_equal. exact Hs. }
    split; [cbn; rewrite E1, E2, E3; reflexivity|].
    exists EmptyString. split; [constructor|reflexivity].
Qed.

Lemma trimStart_rev_fixed (s : string) :
  leads_ws_rev s = false -> JsString.trimStart_rev s = s.
Proof.
  destruct s as [|a [|b [|c s3]]]; cbn; try reflexivity.
  - destruct (JsString.ws1 a); [discriminate|reflexivity].
  - destruct (JsString.ws1 a); [discriminate|]. cbn.
    destruct (JsString.ws2 b a); [discriminate|reflexivity].
  - destruct (JsString.ws1 a); [discriminate|]. cbn.
    destruct (JsString.ws2 b a); [discriminate|]. cbn.
    destruct (JsString.ws3 c b a); [discriminate|reflexivity].
Qed.

Lemma string_of_list_ascii_app (l1 l2 : list ascii) :
  string_of_list_ascii (l1 ++ l2) = string_of_list_ascii l1 +:+ string_of_list_ascii l2.
Proof. induction l1 as [|c l1 IH]; [reflexivity|]. cbn. rewrite IH. reflexivity. Qed.

Lemma string_rev_cons (c : ascii) (s : string) :
  JsString.rev (String c s) = JsString.rev s +:+ String c EmptyString.
Proof. unfold JsString.rev. cbn. apply string_of_list_ascii_app. Qed.

Lemma string_rev_app (a b : string) : JsString.rev (a +:+ b) = JsString.rev b +:+ JsString.rev a.
Proof.
  induction a as [|c a IH].
  - change (EmptyString +:+ b) with b. symmetry. apply app_empty_r.
  - rewrite app_cons, !string_rev_cons, IH. apply string_app_assoc.
Qed.

Lemma string_rev_involutive (s : string) : JsString.rev (JsString.rev s) = s.
Proof.
  unfold JsString.rev. rewrite list_ascii_of_string_of_list_ascii, List.rev_involutive.
  apply string_of_list_ascii_of_string.
Qed.

Lemma WhiteSpaceOnly_app (a b : string) :
  JsString.WhiteSpaceOnly a -> JsString.WhiteSpaceOnly b -> JsString.WhiteSpaceOnly (a +:+ b).
Proof.
  intros Ha Hb. induction Ha; rewrite ?app_cons.
  - exact Hb.
  - apply JsString.wso_1; assumption.
  - apply JsString.wso_2; assumption.
  - apply JsString.wso_3; assumption.
Qed.

Lemma trimStart_rev_spec (n : nat) (s : string) :
  String.length s <= n ->
  leads_ws_rev (JsString.trimStart_rev s) = false
  /\ exists w, JsString.WhiteSpaceOnly w
               /\ JsString.rev s = JsString.rev (JsString.trimStart_rev s) +:+ w.
Proof.
  revert s. induction n as [|n IH]; intros s Hn.
  - destruct s; [|cbn in Hn; lia]. split; [reflexivity|].
    exists EmptyString. split; [constructor|reflexivity].
  - destruct s as [|c s1].
    { split; [reflexivity|]. exists EmptyString. split; [constructor|reflexivity]. }
    cbn [String.length] in Hn. cbn [JsString.trimStart_rev].
    destruct (JsString.ws1 c) eqn:E1.
    { destruct (IH s1 ltac:(lia)) as [H1 (w & Hw & Hs)]. split; [exact H1|].
      exists (w +:+ String c EmptyString). split.
      - apply WhiteSpaceOnly_app; [exact Hw|]. apply JsString.wso_1; [exact E1|constructor].
      - rewrite string_rev_cons, Hs. apply string_app_assoc. }
    destruct s1 as [|b s2].
    { split; [cbn; rewrite E1; reflexivity|].
      exists EmptyString. split; [constructor|]. symmetry. apply app_empty_r. }
    cbn [String.length] in Hn.
    destruct (JsString.ws2 b c) eqn:E2.
    { destruct (IH s2 ltac:(lia)) as [H1 (w & Hw & Hs)]. split; [exact H1|].
      exists (w +:+ String b (String c EmptyString)). split.
      - apply WhiteSpaceOnly_app; [exact Hw|]. apply JsString.wso_2; [exact E2|constructor].
      - rewrite !string_rev_cons, Hs, !string_app_assoc. reflexivity. }
    destruct s2 as [|a s3].
    { split; [cbn; rewrite E1, E2; reflexivity|].
      exists EmptyString. split; [constructor|]. symmetry. apply app_empty_r. }
    cbn [String.length] in Hn.
    destruct (JsString.ws3 a b c) eqn:E3.
    { destruct (IH s3 ltac:(lia)) as [H1 (w & Hw & Hs)]. split; [exact H1|].
      exists (w +:+ String a (String b (String c EmptyString))). split.
      - apply WhiteSpaceOnly_app; [exact Hw|]. apply JsString.wso_3; [exact E3|constructor].
      - rewrite !string_rev_cons, Hs, !string_app_assoc. reflexivity. }
    split; [cbn; rewrite E1, E2, E3; reflexivity|].
    exists EmptyString. split; [constructor|]. symmetry. apply app_empty_r.
Qed.

Lemma leads_ws_prefix (p w : string) : leads_ws (p +:+ w) = false -> leads_ws p = false.
Proof.
  destruct p as [|a [|b [|c p]]]; rewrite ?app_cons; cbn [leads_ws].
  - reflexivity.
  - rewrite orb_false_r. intros H. apply orb_false_iff in H. tauto.
  - rewrite orb_false_r. intros H. apply orb_false_iff in H. destruct H as [H1 H2].
    rewrite H1. cbn. destruct w; [rewrite orb_false_r in H2; exact H2|].
    change (EmptyString +:+ String a0 w) with (String a0 w) in H2.
    apply orb_false_iff in H2. tauto.
  - tauto.
Qed.

(** What [trim] does: it removes a run of white space at each end, and
    what is left neither starts nor ends with white space. *)
Lemma trim_spec (s : string) :
  exists p w,
    JsString.WhiteSpaceOnly p /\ JsString.WhiteSpaceOnly w
    /\ s = p +:+ JsString.trim s +:+ w
    /\ leads_ws (JsString.trim s) = false
    /\ leads_ws_rev (JsString.rev (JsString.trim s)) = false.
Proof.
  destruct (trimStart_spec (String.length s) s (Nat.le_refl _)) as [Hl (p & Hp & Hs)].
  set (t := JsString.trimStart s) in *.
  destruct (trimStart_rev_spec _ (JsString.rev t) (Nat.le_refl _)) as [Hr (w & Hw & Ht)].
  rewrite string_rev_involutive in Ht.
  exists p, w. unfold JsString.trim, JsString.trimEnd. fold t.
  split; [exact Hp|]. split; [exact Hw|]. split; [rewrite <- Ht; exact Hs|]. split.
  - rewrite Ht in Hl. apply leads_ws_prefix in Hl. exact Hl.
  - rewrite string_rev_involutive. exact Hr.
Qed.

Lemma trim_idempotent (s : string) : JsString.trim (JsString.trim s) = JsString.trim s.
Proof.
  destruct (trim_spec s) as (p & w & _ & _ & _ & Hl & Hr).
  unfold JsString.trim at 1. rewrite (trimStart_fixed _ Hl).
  unfold JsString.trimEnd. rewrite (trimStart_rev_fixed _ Hr). apply string_rev_involutive.
Qed.

Lemma leads_ws_WhiteSpaceOnly (s : string) :
  JsString.WhiteSpaceOnly s -> leads_ws s = false -> s = EmptyString.
Proof.
  intros H. destruct H as [|a s Ha _|a b s Hab _|a b c s Habc _]; cbn [leads_ws].
  - reflexivity.
  - rewrite Ha. discriminate.
  - rewrite Hab, orb_true_r. discriminate.
  - rewrite Habc, !orb_true_r. discriminate.
Qed.

Lemma trim_blank (s : string) :
  JsString.trim s = EmptyString <-> JsString.WhiteSpaceOnly s.
Proof.
  split; [|apply trim_WhiteSpaceOnly].
  intros H. destruct (trim_spec s) as (p & w & Hp & Hw & Hs & _).
  rewrite H in Hs. rewrite Hs. apply WhiteSpaceOnly_app; assumption.
Qed.

(* ================================================================== *)
(** * The parsed text and the links of the page *)
(* ================================================================== *)

Lemma parseParams_q (raw : gmap string RawValue) :
  ParsedParams.q (parseParams raw)
  = if JsString.truthy (JsString.trim (raw_text (raw !! "query")))
    then Some (JsString.trim (raw_text (raw !! "query"))) else None.
Proof.
  unfold parseParams. cbn [ParsedParams.q]. rewrite length_pos_truthy.
  destruct (raw !! "query") as [[s|l]|]; reflexivity.
Qed.

Lemma parseParams_normalized (raw : gmap string RawValue) :
  normalized_text (ParsedParams.q (parseParams raw)).
Proof.
  rewrite parseParams_q. destruct (JsString.truthy _) eqn:E; [|exact I].
  split; [apply truthy_true; exact E|apply trim_idempotent].
Qed.

Lemma parseParams_page_ge (raw : gmap string RawValue) :
  (1 <= ParsedParams.page (parseParams raw))%Z.
Proof.
  unfold parseParams. cbn [ParsedParams.page].
  destruct (1 <=? _)%Z eqn:E; [apply Z.leb_le in E; exact E | lia].
Qed.

(** X5: the text produced by [parseParams] is absent exactly when the raw
    query (the string itself, the first element of an array, or nothing)
    consists of white space only; otherwise it is the raw query without a
    run of white space at each end: it is not empty, it neither starts nor
    ends with a white-space character, and trimming it again changes
    nothing. *)
Theorem parseParams_text (raw : gmap string RawValue) :
  (ParsedParams.q (parseParams raw) = None
   <-> JsString.WhiteSpaceOnly (raw_text (raw !! "query")))
  /\ (forall t, ParsedParams.q (parseParams raw) = Some t ->
        t <> EmptyString
        /\ JsString.trim t = t
        /\ leads_ws t = false
        /\ leads_ws_rev (JsString.rev t) = false
        /\ exists p w,
            JsString.WhiteSpaceOnly p /\ JsString.WhiteSpaceOnly w
            /\ raw_text (raw !! "query") = p +:+ t +:+ w).
Proof.
  rewrite parseParams_q. split.
  - rewrite <- trim_blank.
    destruct (JsString.truthy _) eqn:E.
    + apply truthy_true in E. split; [discriminate|intros H; contradiction].
    + destruct (JsString.trim _); [tauto|discriminate E].
  - intros t Ht. destruct (JsString.truthy _) eqn:E; [|discriminate].
    injection Ht as <-.
    destruct (trim_spec (raw_text (raw !! "query"))) as (p & w & Hp & Hw & Hs & Hl & Hr).
    split; [apply truthy_true; exact E|]. split; [apply trim_idempotent|].
    split; [exact Hl|]. split; [exact Hr|]. exists p, w. auto.
Qed.

Lemma parseParams_text_witness :
  ParsedParams.q (parseParams (<["query" := RawString Scenario.padded]> ∅)) = Some "sea view"
  /\ leads_ws "sea view" = false.
Proof.
  assert (ParsedParams.q (parseParams (<["query" := RawString Scenario.padded]> ∅))
          = Some "sea view") as H by reflexivity.
  split; [exact H|].
  exact (proj1 (proj2 (proj2 (proj2 (parseParams_text _) _ H)))).
Defined.

Lemma parse_buildHref (p : Z) (q : option string) (sem : bool) :
  normalized_text q -> (p < 10 ^ 21)%Z ->
  parseParams (searchParams_of_href (buildHref p q sem)) = ParsedParams.mk q (Z.max 1 p) sem.
Proof.
  intros Hq Hp. rewrite searchParams_of_buildHref.
  destruct (record_of_href_params p q sem) as (Eq & Es & Epg).
  unfold parseParams. rewrite Eq, Es, Epg. f_equal.
  - destruct q as [s|]; [|reflexivity].
    destruct Hq as [Hne Htrim]. apply truthy_true in Hne. rewrite Hne, Htrim.
    rewrite length_pos_truthy, Hne. reflexivity.
  - destruct (1 <? p)%Z eqn:E.
    + apply Z.ltb_lt in E. rewrite toString_small by lia.
      rewrite test_digits_decimal, parseInt_decimal, Z2N.id by lia.
      replace (1 <=? p)%Z with true by (symmetry; apply Z.leb_le; lia). lia.
    + apply Z.ltb_ge in E. cbn. lia.
  - destruct sem; reflexivity.
Qed.

Lemma buildHref_not_hash (p : Z) (q : option string) (sem : bool) : buildHref p q sem <> "#".
Proof.
  rewrite buildHref_params. destruct (JsString.truthy _); discriminate.
Qed.

Lemma Home_depends_on_parsed (db : Db) (index : Index) (raw raw' : gmap string RawValue) :
  parseParams raw = parseParams raw' -> Home db index raw = Home db index raw'.
Proof. intros H. unfold Home. rewrite H. reflexivity. Qed.

Section LinksOfHome.
Variable db : Db.
Variable index : Index.
Variable raw : gmap string RawValue.

(** X6: the pagination links of [Home] lead where they say, for page
    numbers that are safe integers (below 2^53, where [page - 1],
    [page + 1] and [String(page)] are exact).  Read back by [parseParams],
    the link of the current page gives the parameters of the request and
    [Home] renders the same page for it; the previous link is ["#"]
    exactly on page 1 and otherwise leads to [page - 1] with the same text
    and flag; the next link is ["#"] exactly when [hasNext] is false and
    otherwise leads to [page + 1] with the same text and flag. *)
Theorem Home_links :
  ((ParsedParams.page (parseParams raw) < 2 ^ 53)%Z ->
     parseParams (searchParams_of_href (SearchResult.currentHref (result (Home db index raw))))
     = parseParams raw
     /\ Home db index
          (searchParams_of_href (SearchResult.currentHref (result (Home db index raw))))
        = Home db index raw)
  /\ (SearchResult.previousHref (result (Home db index raw)) = "#"
      <-> ParsedParams.page (parseParams raw) = 1%Z)
  /\ ((1 < ParsedParams.page (parseParams raw) < 2 ^ 53)%Z ->
      parseParams (searchParams_of_href (SearchResult.previousHref (result (Home db index raw))))
      = ParsedParams.mk (ParsedParams.q (parseParams raw))
          (ParsedParams.page (parseParams raw) - 1)
          (ParsedParams.semanticSearch (parseParams raw)))
  /\ (SearchResult.nextHref (result (Home db index raw)) = "#"
      <-> SearchResult.hasNext (result (Home db index raw)) = false)
  /\ (SearchResult.hasNext (result (Home db index raw)) = true ->
      (ParsedParams.page (parseParams raw) + 1 < 2 ^ 53)%Z ->
      parseParams (searchParams_of_href (SearchResult.nextHref (result (Home db index raw))))
      = ParsedParams.mk (ParsedParams.q (parseParams raw))
          (ParsedParams.page (parseParams raw) + 1)
          (ParsedParams.semanticSearch (parseParams raw))).
Proof.
  pose proof (parseParams_normalized raw) as Hn.
  pose proof (parseParams_page_ge raw) as Hp.
  assert (2 ^ 53 < 10 ^ 21)%Z as Hsafe by reflexivity.
  rewrite Home_unfold.
  cbn [SearchResult.currentHref SearchResult.previousHref SearchResult.nextHref
       SearchResult.hasNext].
  split; [|split; [|split; [|split]]].
  - intros Hlt.
    assert (parseParams (searchParams_of_href
              (buildHref (ParsedParams.page (parseParams raw)) (ParsedParams.q (parseParams raw))
                 (ParsedParams.semanticSearch (parseParams raw)))) = parseParams raw) as E.
    { rewrite parse_buildHref by (assumption || lia). rewrite Z.max_r by exact Hp.
      destruct (parseParams raw); reflexivity. }
    split; [exact E|]. apply Home_depends_on_parsed. exact E.
  - destruct (1 <? _)%Z eqn:E.
    + apply Z.ltb_lt in E. split; [intros H; contradiction (buildHref_not_hash _ _ _ H)|lia].
    + apply Z.ltb_ge in E. split; [lia|reflexivity].
  - intros [H1 H2]. replace (1 <? _)%Z with true by (symmetry; apply Z.ltb_lt; exact H1).
    rewrite parse_buildHref by (assumption || lia). f_equal. lia.
  - destruct (PAGE_SIZE <? _)%nat.
    + split; [intros H; contradiction (buildHref_not_hash _ _ _ H)|discriminate].
    + split; reflexivity.
  - intros Hh Hlt. rewrite Hh. rewrite parse_buildHref by (assumption || lia). f_equal. lia.
Qed.

End LinksOfHome.

Lemma Home_links_witness :
  SearchResult.hasNext
    (result (Home Scenario.four_rows Scenario.no_hits Scenario.first_page)) = true
  /\ parseParams
       (searchParams_of_href
          (SearchResult.nextHref
             (result (Home Scenario.four_rows Scenario.no_hits Scenario.first_page))))
     = ParsedParams.mk (Some "loft") 2 false.
Proof.
  assert (SearchResult.hasNext
            (result (Home Scenario.four_rows Scenario.no_hits Scenario.first_page)) = true)
    as H by reflexivity.
  split; [exact H|].
  exact (proj2 (proj2 (proj2 (proj2
           (Home_links Scenario.four_rows Scenario.no_hits Scenario.first_page))))
           H eq_refl).
Defined.

(* ================================================================== *)
(** * Pages of the lexical search *)
(* ================================================================== *)

Section Pagination.
Variable db : Db.
Variable q : option string.

Lemma total_matching_length : total_matching db q = length (matching_rows db q).
Proof. reflexivity. Qed.

Lemma lexical_page_segment (page : Z) :
  (1 <= page)%Z ->
  lexical_page db q page
  = firstn (PAGE_SIZE + 1) (skipn (PAGE_SIZE * (Z.to_nat page - 1)) (matching_rows db q)).
Proof.
  intros Hp. unfold lexical_page, matching_rows. rewrite where_clause.
  unfold fetchFromDb, db_select, bind, ret, result. cbn [fst snd].
  rewrite List.map_map. cbn [DbRow.apartment]. rewrite List.map_id.
  replace (Z.to_nat ((page - 1) * Z.of_nat PAGE_SIZE)) with (PAGE_SIZE * (Z.to_nat page - 1))
    by (unfold PAGE_SIZE; lia).
  reflexivity.
Qed.

Lemma length_lexical_page (page : Z) :
  (1 <= page)%Z ->
  length (lexical_page db q page)
  = Nat.min (PAGE_SIZE + 1) (total_matching db q - PAGE_SIZE * (Z.to_nat page - 1)).
Proof.
  intros Hp. rewrite lexical_page_segment by exact Hp.
  rewrite length_take, length_drop. reflexivity.
Qed.

(** X7: the extra row that [fetchFromDb] asks for detects the next page
    exactly.  For a page number from 1 on, more than PAGE_SIZE rows come
    back if and only if the next page has at least one row, that is, if
    and only if more than PAGE_SIZE * page rows match; and no row comes
    back if and only if the offset lies at or beyond the last match. *)
Theorem lexical_overflow_detects_next_page (page : Z) :
  (1 <= page)%Z ->
  (PAGE_SIZE < length (lexical_page db q page)
   <-> lexical_page db q (page + 1) <> [])
  /\ (PAGE_SIZE < length (lexical_page db q page)
   <-> PAGE_SIZE * Z.to_nat page < total_matching db q)
  /\ (lexical_page db q page = []
   <-> total_matching db q <= PAGE_SIZE * (Z.to_nat page - 1)).
Proof.
  intros Hp.
  assert (forall l : list Apartment.t, l <> [] <-> 0 < length l) as Hne.
  { intros [|x l]; cbn; split; try congruence; try lia. }
  assert (forall l : list Apartment.t, l = [] <-> length l = 0) as Hnil.
  { intros [|x l]; cbn; split; try congruence; try lia. }
  rewrite Hne, Hnil, !length_lexical_page by lia.
  replace (Z.to_nat (page + 1) - 1) with (Z.to_nat page) by lia.
  unfold PAGE_SIZE. split; [|split]; lia.
Qed.

(** X8: shown PAGE_SIZE rows at a time, pages 1 to n of [fetchFromDb]
    are the first PAGE_SIZE * n matching rows in the order of the store:
    no row is skipped and none is shown twice. *)
Theorem lexical_pages_tile (n : nat) :
  flat_map (fun p => firstn PAGE_SIZE (lexical_page db q (Z.of_nat p))) (seq 1 n)
  = firstn (PAGE_SIZE * n) (matching_rows db q).
Proof.
  induction n as [|n IH]; [reflexivity|].
  rewrite seq_S, flat_map_app, IH. cbn [flat_map]. rewrite app_nil_r.
  rewrite lexical_page_segment by lia.
  replace (Z.to_nat (Z.of_nat (1 + n)) - 1) with n by lia.
  rewrite firstn_firstn. replace (Nat.min PAGE_SIZE (PAGE_SIZE + 1)) with PAGE_SIZE by reflexivity.
  replace (PAGE_SIZE * S n) with (PAGE_SIZE * n + PAGE_SIZE) by lia.
  apply take_take_drop.
Qed.
End Pagination.

Lemma lexical_overflow_detects_next_page_witness :
  (1 <= 1)%Z /\ lexical_page Scenario.four_rows (Some "loft") (1 + 1) <> [].
Proof.
  assert (1 <= 1)%Z as H by lia.
  split; [exact H|].
  apply (proj1 (proj1 (lexical_overflow_detects_next_page
                         Scenario.four_rows (Some "loft") 1 H))).
  vm_compute. lia.
Defined.

(* ================================================================== *)
(** * The two modes of [Home] *)
(* ================================================================== *)

Section Modes.
Variable db : Db.
Variable index : Index.

Lemma Home_rows_lexical_page (raw : gmap string RawValue) :
  List.map DbRow.apartment (Home_rows db raw)
  = lexical_page db (ParsedParams.q (parseParams raw)) (ParsedParams.page (parseParams raw)).
Proof. reflexivity. Qed.

Lemma Home_dbTotal_nonempty (raw : gmap string RawValue) :
  Home_rows db raw <> [] ->
  Home_dbTotal db raw = total_matching db (ParsedParams.q (parseParams raw)).
Proof.
  unfold Home_rows, Home_dbTotal, total_matching. rewrite where_clause.
  unfold fetchFromDb, db_select, bind, ret, result. cbn [fst snd].
  destruct (firstn _ _) as [|a l]; [intros H; contradiction H; reflexivity|].
  intros _. reflexivity.
Qed.

Lemma Home_gate_of_parsed (raw raw' : gmap string RawValue) :
  parseParams raw = parseParams raw' -> Home_gate db raw = Home_gate db raw'.
Proof. intros H. unfold Home_gate, Home_rows. rewrite H. reflexivity. Qed.

Lemma Home_next_parsed (raw : gmap string RawValue) :
  SearchResult.hasNext (result (Home db index raw)) = true ->
  (ParsedParams.page (parseParams raw) + 1 < 10 ^ 21)%Z ->
  parseParams (searchParams_of_href (SearchResult.nextHref (result (Home db index raw))))
  = ParsedParams.mk (ParsedParams.q (parseParams raw))
      (ParsedParams.page (parseParams raw) + 1)
      (ParsedParams.semanticSearch (parseParams raw)).
Proof.
  pose proof (parseParams_normalized raw) as Hn.
  pose proof (parseParams_page_ge raw) as Hp.
  rewrite Home_unfold. cbn [SearchResult.nextHref SearchResult.hasNext].
  intros Hh Hlt. rewrite Hh. rewrite parse_buildHref by (assumption || lia). f_equal. lia.
Qed.

Lemma Home_dbTotal_empty (raw : gmap string RawValue) :
  Home_rows db raw = [] -> Home_dbTotal db raw = 0.
Proof.
  unfold Home_rows, Home_dbTotal.
  unfold fetchFromDb, bind, ret, result. cbn [fst snd].
  intros ->. reflexivity.
Qed.

(** X9: with the semantic flag off, or without a text, [Home] is plain
    pagination over the matching rows: the items are rows
    PAGE_SIZE * (page - 1) to PAGE_SIZE * page of the matching rows,
    [hasNext] holds exactly when more than PAGE_SIZE * page rows match, a
    non-empty page shows the number of all matching rows as its total, and
    following the next link gives the next PAGE_SIZE rows, of which there
    is at least one. *)
Theorem Home_lexical_mode (raw : gmap string RawValue) :
  ParsedParams.semanticSearch (parseParams raw) = false
  \/ ParsedParams.q (parseParams raw) = None ->
  SearchResult.items (result (Home db index raw))
  = firstn PAGE_SIZE
      (skipn (PAGE_SIZE * (Z.to_nat (ParsedParams.page (parseParams raw)) - 1))
         (matching_rows db (ParsedParams.q (parseParams raw))))
  /\ (SearchResult.hasNext (result (Home db index raw)) = true
      <-> PAGE_SIZE * Z.to_nat (ParsedParams.page (parseParams raw))
          < total_matching db (ParsedParams.q (parseParams raw)))
  /\ (SearchResult.items (result (Home db index raw)) <> [] ->
      SearchResult.total (result (Home db index raw))
      = total_matching db (ParsedParams.q (parseParams raw)))
  /\ (SearchResult.hasNext (result (Home db index raw)) = true ->
      (ParsedParams.page (parseParams raw) + 1 < 10 ^ 21)%Z ->
      SearchResult.items
        (result (Home db index
                   (searchParams_of_href
                      (SearchResult.nextHref (result (Home db index raw))))))
      = firstn PAGE_SIZE
          (skipn (PAGE_SIZE * Z.to_nat (ParsedParams.page (parseParams raw)))
             (matching_rows db (ParsedParams.q (parseParams raw))))
      /\ SearchResult.items
           (result (Home db index
                      (searchParams_of_href
                         (SearchResult.nextHref (result (Home db index raw))))))
         <> []).
Proof.
  intros Hmode.
  pose proof (parseParams_page_ge raw) as Hp.
  assert (forall raw' : gmap string RawValue,
            ParsedParams.semanticSearch (parseParams raw') = false
            \/ ParsedParams.q (parseParams raw') = None ->
            Home_semanticExtras db index raw' = []) as Hoff.
  { intros raw' H. unfold Home_semanticExtras.
    destruct (Home_gate db raw') eqn:G; [|reflexivity].
    apply Home_gate_spec in G. destruct G as (G1 & [t G2] & _).
    destruct H as [H|H]; congruence. }
  assert (forall raw' : gmap string RawValue,
            ParsedParams.semanticSearch (parseParams raw') = false
            \/ ParsedParams.q (parseParams raw') = None ->
            SearchResult.items (result (Home db index raw'))
            = firstn PAGE_SIZE
                (skipn (PAGE_SIZE * (Z.to_nat (ParsedParams.page (parseParams raw')) - 1))
                   (matching_rows db (ParsedParams.q (parseParams raw'))))) as Hitems.
  { intros raw' H. rewrite Home_unfold. cbn [SearchResult.items].
    rewrite (Hoff raw' H), app_nil_r, Home_rows_lexical_page.
    rewrite lexical_page_segment by apply parseParams_page_ge.
    rewrite firstn_firstn. reflexivity. }
  assert (SearchResult.hasNext (result (Home db index raw)) = true
          <-> PAGE_SIZE * Z.to_nat (ParsedParams.page (parseParams raw))
              < total_matching db (ParsedParams.q (parseParams raw))) as Hnext.
  { rewrite Home_unfold. cbn [SearchResult.hasNext].
    rewrite (Hoff raw Hmode), app_nil_r, Home_rows_lexical_page, Nat.ltb_lt.
    rewrite length_lexical_page by exact Hp. unfold PAGE_SIZE. lia. }
  split; [apply Hitems; exact Hmode|]. split; [exact Hnext|]. split.
  - intros Hne. rewrite Home_unfold. cbn [SearchResult.total].
    rewrite (Hoff raw Hmode). cbn [length].
    rewrite Nat.add_0_r. apply Home_dbTotal_nonempty.
    intros Hrows. apply Hne. rewrite Home_unfold. cbn [SearchResult.items].
    rewrite Hrows, (Hoff raw Hmode). reflexivity.
  - intros Hh Hlt.
    pose proof (Home_next_parsed raw Hh Hlt) as Hparse.
    set (raw' := searchParams_of_href (SearchResult.nextHref (result (Home db index raw)))) in *.
    assert (ParsedParams.semanticSearch (parseParams raw') = false
            \/ ParsedParams.q (parseParams raw') = None) as Hmode'.
    { rewrite Hparse. cbn. exact Hmode. }
    rewrite (Hitems raw' Hmode'), Hparse. cbn [ParsedParams.page ParsedParams.q].
    replace (Z.to_nat (ParsedParams.page (parseParams raw) + 1) - 1)
      with (Z.to_nat (ParsedParams.page (parseParams raw))) by lia.
    split; [reflexivity|].
    apply Hnext in Hh. rewrite total_matching_length in Hh.
    intros Hnil. apply (f_equal (@length _)) in Hnil.
    rewrite length_take, length_drop in Hnil. cbn [length] in Hnil.
    unfold PAGE_SIZE in *. lia.
Qed.

(** X10: when the lexical rows run out on a page that the semantic
    extras overfill, the next link leads to a page without lexical rows:
    its items are the first PAGE_SIZE results of the fallback queried
    with an empty set of lexical ids, and its total is the number of
    those results alone. *)
Theorem Home_after_short_page (raw : gmap string RawValue) (text : string) :
  ParsedParams.semanticSearch (parseParams raw) = true ->
  ParsedParams.q (parseParams raw) = Some text ->
  length (Home_rows db raw) < PAGE_SIZE ->
  SearchResult.hasNext (result (Home db index raw)) = true ->
  (ParsedParams.page (parseParams raw) + 1 < 10 ^ 21)%Z ->
  Home_rows db (searchParams_of_href (SearchResult.nextHref (result (Home db index raw)))) = []
  /\ SearchResult.items
       (result (Home db index
                  (searchParams_of_href (SearchResult.nextHref (result (Home db index raw))))))
     = firstn PAGE_SIZE (result (fetchSemanticFallback index text ∅))
  /\ SearchResult.total
       (result (Home db index
                  (searchParams_of_href (SearchResult.nextHref (result (Home db index raw))))))
     = length (result (fetchSemanticFallback index text ∅)).
Proof.
  intros Hs Hq Hshort Hh Hlt.
  pose proof (parseParams_page_ge raw) as Hp.
  pose proof (Home_next_parsed raw Hh Hlt) as Hparse.
  set (raw' := searchParams_of_href (SearchResult.nextHref (result (Home db index raw)))) in *.
  assert (Home_rows db raw' = []) as Hrows.
  {
    assert (length (List.map DbRow.apartment (Home_rows db raw')) = 0) as H0.
    { rewrite Home_rows_lexical_page, Hparse. cbn [ParsedParams.page ParsedParams.q].
      rewrite length_lexical_page by lia.
      rewrite <- (length_map DbRow.apartment), Home_rows_lexical_page in Hshort.
      rewrite length_lexical_page in Hshort by exact Hp.
      replace (Z.to_nat (ParsedParams.page (parseParams raw) + 1) - 1)
        with (Z.to_nat (ParsedParams.page (parseParams raw))) by lia.
      unfold PAGE_SIZE in *. lia. }
    rewrite length_map in H0. destruct (Home_rows db raw'); [reflexivity|discriminate H0]. }
  assert (Home_semanticExtras db index raw' = result (fetchSemanticFallback index text ∅))
    as Hextras.
  { unfold Home_semanticExtras.
    replace (Home_gate db raw') with true.
    - rewrite Hrows, Hparse. cbn [ParsedParams.q]. rewrite Hq. reflexivity.
    - symmetry. apply Home_gate_spec. rewrite Hrows, Hparse.
      cbn [ParsedParams.q ParsedParams.semanticSearch length].
      split; [exact Hs|]. split; [rewrite Hq; eauto|unfold PAGE_SIZE; lia]. }
  split; [exact Hrows|].
  rewrite Home_unfold. cbn [SearchResult.items SearchResult.total].
  rewrite Hextras, Hrows, (Home_dbTotal_empty raw' Hrows). split; reflexivity.
Qed.

End Modes.

Lemma Home_lexical_mode_witness :
  ParsedParams.semanticSearch (parseParams Scenario.first_page) = false
  /\ List.map Apartment.id
       (SearchResult.items
          (result (Home Scenario.four_rows Scenario.no_hits Scenario.first_page)))
     = ["1"; "2"; "3"].
Proof.
  assert (ParsedParams.semanticSearch (parseParams Scenario.first_page) = false)
    as H by reflexivity.
  split; [exact H|].
  rewrite (proj1 (Home_lexical_mode Scenario.four_rows Scenario.no_hits Scenario.first_page
                    (or_introl H))).
  reflexivity.
Defined.

Lemma Home_after_short_page_witness :
  SearchResult.hasNext (result (Home Sample.two_rows Sample.two_hits Sample.loft)) = true
  /\ List.map Apartment.id
       (SearchResult.items
          (result (Home Sample.two_rows Sample.two_hits
                     (searchParams_of_href
                        (SearchResult.nextHref
                           (result (Home Sample.two_rows Sample.two_hits Sample.loft)))))))
     = ["7"; "8"].
Proof.
  assert (SearchResult.hasNext (result (Home Sample.two_rows Sample.two_hits Sample.loft))
          = true) as H by reflexivity.
  assert (length (Home_rows Sample.two_rows Sample.loft) < PAGE_SIZE) as Hlen
    by (vm_compute; lia).
  split; [exact H|].
  rewrite (proj1 (proj2 (Home_after_short_page Sample.two_rows Sample.two_hits Sample.loft
                           "loft" eq_refl eq_refl Hlen H eq_refl))).
  vm_compute. reflexivity.
Defined.

(* ================================================================== *)
(** * The client components *)
(* ================================================================== *)

Section ClientFacts.

Lemma values_of_app (k : string) (l1 l2 : Url.SearchParams) :
  values_of k (l1 ++ l2) = values_of k l1 ++ values_of k l2.
Proof. unfold values_of. rewrite List.filter_app, List.map_app. reflexivity. Qed.

Lemma record_of_snoc (l : Url.SearchParams) (x : string * string) :
  record_of (l ++ [x]) = add_entry (record_of l) x.
Proof. unfold record_of. rewrite List.fold_left_app. reflexivity. Qed.

Lemma record_of_lookup (l : Url.SearchParams) (k : string) :
  record_of l !! k = raw_of_values (values_of k l).
Proof.
  induction l as [|[n v] l IH] using rev_ind; [reflexivity|].
  rewrite record_of_snoc, values_of_app. unfold add_entry. cbn [fst snd].
  unfold values_of at 2. cbn [List.filter List.map fst snd].
  destruct (String.eqb n k) eqn:E.
  - apply String.eqb_eq in E. subst n. rewrite IH.
    destruct (values_of k l) as [|w [|w' ws]]; cbn [raw_of_values List.map app].
    + apply lookup_insert_eq.
    + rewrite lookup_insert_eq. reflexivity.
    + rewrite lookup_insert_eq. cbn. destruct ws; reflexivity.
  - apply String.eqb_neq in E. cbn [List.map]. rewrite app_nil_r.
    destruct (record_of l !! n) as [[w|ws]|]; rewrite lookup_insert_ne by exact E; exact IH.
Qed.

Lemma values_of_delete (k n : string) (l : Url.SearchParams) :
  values_of k (Url.delete n l) = if String.eqb n k then [] else values_of k l.
Proof.
  unfold values_of, Url.delete.
  induction l as [|[m v] l IH]; cbn [List.filter List.map fst snd].
  - destruct (String.eqb n k); reflexivity.
  - destruct (String.eqb m n) eqn:Emn; cbn [negb].
    + apply String.eqb_eq in Emn. subst m. rewrite IH.
      destruct (String.eqb n k); reflexivity.
    + cbn [List.filter fst]. destruct (String.eqb n k) eqn:Enk.
      * apply String.eqb_eq in Enk. subst k. rewrite Emn. exact IH.
      * destruct (String.eqb m k); cbn [List.map snd]; rewrite IH; reflexivity.
Qed.

Lemma values_of_replace_first (k n v : string) (l : Url.SearchParams) :
  existsb (fun p => String.eqb (fst p) n) l = true ->
  values_of k (Url.replace_first n v l) = if String.eqb n k then [v] else values_of k l.
Proof.
  induction l as [|[m w] l IH]; cbn [existsb Url.replace_first fst]; [discriminate|].
  destruct (String.eqb m n) eqn:Emn.
  - intros _. apply String.eqb_eq in Emn. subst m.
    unfold values_of. cbn [List.filter fst]. destruct (String.eqb n k) eqn:Enk.
    + cbn [List.map snd]. f_equal.
      pose proof (values_of_delete k n l) as D. unfold values_of, Url.delete in D.
      rewrite D, Enk. reflexivity.
    + pose proof (values_of_delete k n l) as D. unfold values_of, Url.delete in D.
      rewrite D, Enk. reflexivity.
  - cbn [orb]. intros H. specialize (IH H).
    unfold values_of in *. cbn [List.filter fst].
    destruct (String.eqb n k) eqn:Enk.
    + apply String.eqb_eq in Enk. subst k. rewrite Emn. exact IH.
    + destruct (String.eqb m k); cbn [List.map snd]; rewrite IH; reflexivity.
Qed.

Lemma values_of_none (n : string) (l : Url.SearchParams) :
  existsb (fun p => String.eqb (fst p) n) l = false -> values_of n l = [].
Proof.
  unfold values_of. induction l as [|[m w] l IH]; cbn [existsb List.filter fst]; [reflexivity|].
  destruct (String.eqb m n); [discriminate|]. exact IH.
Qed.

Lemma values_of_set (k n v : string) (l : Url.SearchParams) :
  values_of k (Url.set n v l) = if String.eqb n k then [v] else values_of k l.
Proof.
  unfold Url.set. destruct (existsb _ l) eqn:E.
  - apply values_of_replace_first. exact E.
  - rewrite values_of_app. unfold values_of at 2. cbn [List.filter List.map fst snd].
    destruct (String.eqb n k) eqn:Enk.
    + apply String.eqb_eq in Enk. subst k. rewrite (values_of_none n l E). reflexivity.
    + apply app_nil_r.
Qed.

Lemma searchParams_of_pushed (params : Url.SearchParams) :
  searchParams_of_href ("/?" +:+ Url.toString params) = record_of params.
Proof.
  unfold searchParams_of_href.
  rewrite query_of_href by (apply no_char_toString; reflexivity).
  rewrite parse_toString. reflexivity.
Qed.

End ClientFacts.

Section Clients.
Variable searchParams : Url.SearchParams.

Lemma parseParams_no_page (raw : gmap string RawValue) :
  raw !! "page" = None -> ParsedParams.page (parseParams raw) = 1%Z.
Proof. intros H. unfold parseParams. rewrite H. reflexivity. Qed.

Lemma get_values_of (k : string) (l : Url.SearchParams) :
  Url.get k l = List.head (values_of k l).
Proof.
  unfold Url.get, values_of. destruct (List.filter _ l) as [|[n v] t]; reflexivity.
Qed.

(** X11: submitting the search bar leads to page 1 of the typed text.
    The URL that [search] pushes is read by [parseParams] as the trimmed
    text (no text when the input is blank), page 1 and the semantic flag
    of the current URL; every parameter other than [query] and [page] is
    carried over unchanged; and after the navigation the bar shows the
    trimmed text as its default. *)
Theorem search_pushes (query : string) :
  parseParams (searchParams_of_href (SearchBar.search searchParams query))
  = ParsedParams.mk
      (if JsString.truthy (JsString.trim query) then Some (JsString.trim query) else None)
      1
      (ParsedParams.semanticSearch (parseParams (record_of searchParams)))
  /\ (forall k, k <> "query" -> k <> "page" ->
        searchParams_of_href (SearchBar.search searchParams query) !! k
        = record_of searchParams !! k)
  /\ SearchBar.defaultQuery (Url.parse (Url.query_of (SearchBar.search searchParams query)))
     = (if JsString.truthy (JsString.trim query) then JsString.trim query else EmptyString).
Proof.
  unfold SearchBar.search.
  rewrite parse_toString, searchParams_of_pushed.
  set (params := if JsString.truthy (JsString.trim query)
                 then Url.set "query" (JsString.trim query) searchParams
                 else Url.delete "query" searchParams).
  assert (forall k, k <> "page" ->
            values_of k (Url.delete "page" params)
            = if String.eqb "query" k
              then (if JsString.truthy (JsString.trim query) then [JsString.trim query] else [])
              else values_of k searchParams) as Hv.
  { intros k Hk. rewrite values_of_delete.
    replace (String.eqb "page" k) with false
      by (symmetry; apply String.eqb_neq; congruence).
    subst params. destruct (JsString.truthy _);
      [rewrite values_of_set|rewrite values_of_delete]; destruct (String.eqb "query" k);
      reflexivity. }
  split; [|split].
  - assert (record_of (Url.delete "page" params) !! "query"
            = if JsString.truthy (JsString.trim query)
              then Some (RawString (JsString.trim query)) else None) as Lq.
    { rewrite record_of_lookup, (Hv "query") by discriminate.
      change (String.eqb "query" "query") with true.
      destruct (JsString.truthy _); reflexivity. }
    assert (record_of (Url.delete "page" params) !! "semanticSearch"
            = record_of searchParams !! "semanticSearch") as Ls.
    { rewrite !record_of_lookup, (Hv "semanticSearch") by discriminate. reflexivity. }
    assert (record_of (Url.delete "page" params) !! "page" = None) as Lp.
    { rewrite record_of_lookup, values_of_delete. reflexivity. }
    unfold parseParams. rewrite Lq, Ls, Lp. f_equal.
    destruct (JsString.truthy (JsString.trim query)) eqn:E; [|reflexivity].
    rewrite trim_idempotent, length_pos_truthy, E. reflexivity.
  - intros k Hq Hp. rewrite !record_of_lookup, (Hv k Hp).
    replace (String.eqb "query" k) with false
      by (symmetry; apply String.eqb_neq; congruence).
    reflexivity.
  - rewrite query_of_href by (apply no_char_toString; reflexivity).
    rewrite parse_toString. unfold SearchBar.defaultQuery.
    rewrite get_values_of, (Hv "query") by discriminate.
    change (String.eqb "query" "query") with true.
    destruct (JsString.truthy (JsString.trim query)) eqn:E; cbn; [rewrite E|]; reflexivity.
Qed.

(** X12: switching the semantic toggle leads to page 1 of the same
    text.  The URL that [handleToggle] pushes is read by [parseParams] as
    the text of the current URL, page 1 and the flag equal to the state of
    the switch; every parameter other than [semanticSearch] and [page] is
    carried over unchanged. *)
Theorem toggle_pushes (checked : bool) :
  parseParams
    (searchParams_of_href (SemanticSearchToggle.handleToggle searchParams checked))
  = ParsedParams.mk (ParsedParams.q (parseParams (record_of searchParams))) 1 checked
  /\ (forall k, k <> "semanticSearch" -> k <> "page" ->
        searchParams_of_href (SemanticSearchToggle.handleToggle searchParams checked) !! k
        = record_of searchParams !! k).
Proof.
  unfold SemanticSearchToggle.handleToggle.
  rewrite parse_toString, searchParams_of_pushed.
  set (params := if checked then Url.set "semanticSearch" "1" searchParams
                 else Url.delete "semanticSearch" searchParams).
  assert (forall k, k <> "page" ->
            values_of k (Url.delete "page" params)
            = if String.eqb "semanticSearch" k
              then (if checked then ["1"] else [])
              else values_of k searchParams) as Hv.
  { intros k Hk. rewrite values_of_delete.
    replace (String.eqb "page" k) with false
      by (symmetry; apply String.eqb_neq; congruence).
    subst params. destruct checked;
      [rewrite values_of_set|rewrite values_of_delete];
      destruct (String.eqb "semanticSearch" k); reflexivity. }
  split.
  - assert (record_of (Url.delete "page" params) !! "query"
            = record_of searchParams !! "query") as Lq.
    { rewrite !record_of_lookup, (Hv "query") by discriminate. reflexivity. }
    assert (record_of (Url.delete "page" params) !! "semanticSearch"
            = if checked then Some (RawString "1") else None) as Ls.
    { rewrite record_of_lookup, (Hv "semanticSearch") by discriminate.
      change (String.eqb "semanticSearch" "semanticSearch") with true.
      destruct checked; reflexivity. }
    assert (record_of (Url.delete "page" params) !! "page" = None) as Lp.
    { rewrite record_of_lookup, values_of_delete. reflexivity. }
    unfold parseParams. rewrite Lq, Ls, Lp. f_equal. destruct checked; reflexivity.
  - intros k Hq Hp. rewrite !record_of_lookup, (Hv k Hp).
    replace (String.eqb "semanticSearch" k) with false
      by (symmetry; apply String.eqb_neq; congruence).
    reflexivity.
Qed.

End Clients.

(* ================================================================== *)
(** * The page before [search.ts] *)
(* ================================================================== *)

Section Versions.

Lemma parse_digits_nonneg (s : string) (acc : Z) :
  JsNumber.all_digits s = true -> (0 <= acc)%Z -> (0 <= JsNumber.parse_digits s acc)%Z.
Proof.
  revert acc. induction s as [|c s IH]; intros acc Hd Ha; cbn in *; [exact Ha|].
  apply andb_true_iff in Hd. destruct Hd as [Hc Hd]. apply IH; [exact Hd|].
  unfold JsNumber.is_digit in Hc. apply andb_true_iff in Hc. destruct Hc as [Hc _].
  apply N.leb_le in Hc. lia.
Qed.

Lemma pageNum_nonneg (params : gmap string RawValue) : (0 <= HomeV1.pageNum params)%Z.
Proof.
  unfold HomeV1.pageNum. destruct (params !! "page") as [[s|l]|]; try lia.
  destruct (JsNumber.test_digits s) eqn:E; [|lia].
  unfold JsNumber.test_digits in E. apply andb_true_iff in E.
  apply parse_digits_nonneg; [tauto|lia].
Qed.

Lemma parseParams_page_V1 (params : gmap string RawValue) :
  ParsedParams.page (parseParams params) = Z.max 1 (HomeV1.pageNum params).
Proof.
  unfold parseParams, HomeV1.pageNum. cbn [ParsedParams.page].
  destruct (params !! "page") as [[s|l]|];
    [destruct (JsNumber.test_digits s)| |]; try reflexivity.
  destruct (1 <=? _)%Z eqn:E; [apply Z.leb_le in E|apply Z.leb_gt in E]; lia.
Qed.

Lemma parseParams_q_V1 (params : gmap string RawValue) :
  (forall l, params !! "query" <> Some (RawArray l)) ->
  ParsedParams.q (parseParams params) = HomeV1.q params.
Proof.
  intros Hna. rewrite parseParams_q. unfold HomeV1.q.
  destruct (params !! "query") as [[s|l]|]; try reflexivity.
  contradiction (Hna l). reflexivity.
Qed.

Lemma buildHref_V1 (q : option string) (p : Z) : HomeV1.buildHref q p = buildHref p q false.
Proof. reflexivity. Qed.

(** X13: the older page has no answer for the page parameter 0.  Its
    offset is negative, and the store refuses the query, exactly when the
    [page] parameter is a string of digits of value 0 (["0"], ["00"], ...);
    the offset is then -3.  [parseParams] sends the same requests to
    page 1, and the offset computed from its page is never negative. *)
Theorem HomeV1_page_zero (db : Db) (params : gmap string RawValue) :
  ((HomeV1.offset params < 0)%Z
   <-> exists s, params !! "page" = Some (RawString s)
                 /\ JsNumber.test_digits s = true /\ JsNumber.parseInt s = 0%Z)
  /\ (HomeV1.Home db params = None <-> (HomeV1.offset params < 0)%Z)
  /\ ((HomeV1.offset params < 0)%Z -> HomeV1.offset params = (-3)%Z)
  /\ (0 <= (ParsedParams.page (parseParams params) - 1) * Z.of_nat PAGE_SIZE)%Z
  /\ ((HomeV1.offset params < 0)%Z -> ParsedParams.page (parseParams params) = 1%Z).
Proof.
  pose proof (pageNum_nonneg params) as Hn.
  pose proof (parseParams_page_ge params) as Hp.
  split; [|split; [|split; [|split]]].
  - unfold HomeV1.offset, HomeV1.pageSize. split.
    + intros H. assert (HomeV1.pageNum params = 0%Z) as H0 by lia.
      unfold HomeV1.pageNum in H0.
      destruct (params !! "page") as [[s|l]|]; try discriminate.
      destruct (JsNumber.test_digits s) eqn:E; [|discriminate]. eauto.
    + intros (s & Hs & Hd & H0). unfold HomeV1.pageNum. rewrite Hs, Hd, H0. lia.
  - unfold HomeV1.Home. destruct (HomeV1.offset params <? 0)%Z eqn:E.
    + apply Z.ltb_lt in E. tauto.
    + apply Z.ltb_ge in E. split; [discriminate|lia].
  - unfold HomeV1.offset, HomeV1.pageSize. lia.
  - unfold PAGE_SIZE. lia.
  - unfold HomeV1.offset, HomeV1.pageSize. rewrite parseParams_page_V1. lia.
Qed.

Lemma db_select_agree (db1 db : Db) (f : option string) (l o : nat) :
  apartmentTable db1 = apartmentTable db ->
  (forall t a, f = Some t -> In a (apartmentTable db) ->
               ts_match db1 t a = ts_match db t a) ->
  db_select db1 f l o = db_select db f l o.
Proof.
  intros Ht Hm. unfold db_select. rewrite Ht.
  destruct f as [t|]; [|reflexivity].
  rewrite (List.filter_ext_in _ _ _ (fun a Ha => Hm t a eq_refl Ha)). reflexivity.
Qed.

Lemma Home_V1_same_page (db1 db : Db) (index : Index) (params : gmap string RawValue)
    (v : Async HomeV1.View) :
  apartmentTable db1 = apartmentTable db ->
  (forall t a, HomeV1.q params = Some t -> In a (apartmentTable db) ->
               ts_match db1 t a = ts_match db t a) ->
  (forall l, params !! "query" <> Some (RawArray l)) ->
  ParsedParams.semanticSearch (parseParams params) = false ->
  HomeV1.Home db1 params = Some v ->
  SearchResult.items (result (Home db index params)) = HomeV1.results (result v)
  /\ SearchResult.hasNext (result (Home db index params)) = HomeV1.hasNext (result v)
  /\ SearchResult.total (result (Home db index params)) = HomeV1.total (result v)
  /\ SearchResult.previousHref (result (Home db index params)) = HomeV1.previousHref (result v)
  /\ SearchResult.currentHref (result (Home db index params)) = HomeV1.currentHref (result v)
  /\ SearchResult.nextHref (result (Home db index params)) = HomeV1.nextHref (result v).
Proof.
  intros Ht Hm Hna Hs Hv.
  assert (forall l o,
            db_select db1 (if truthy_q (HomeV1.q params) then HomeV1.q params else None) l o
            = db_select db (if truthy_q (HomeV1.q params) then HomeV1.q params else None) l o)
    as Hsel.
  { intros l o. apply db_select_agree; [exact Ht|].
    intros t a Hf Ha. apply Hm; [|exact Ha].
    destruct (HomeV1.q params) as [t'|]; cbn [truthy_q] in Hf; [|discriminate].
    destruct (JsString.truthy t'); [exact Hf|discriminate]. }
  unfold HomeV1.Home in Hv.
  destruct (HomeV1.offset params <? 0)%Z eqn:E; [discriminate|].
  apply Z.ltb_ge in E. injection Hv as <-.
  assert (ParsedParams.page (parseParams params) = HomeV1.pageNum params) as Hpage.
  { rewrite parseParams_page_V1. unfold HomeV1.offset, HomeV1.pageSize in E. lia. }
  pose proof (parseParams_q_V1 params Hna) as Hq.
  unfold Home. rewrite Hs, Hq, Hpage, Hsel.
  unfold fetchFromDb, HomeV1.offset, HomeV1.pageSize, PAGE_SIZE, bind, ret, result.
  cbn [fst snd andb].
  destruct (HomeV1.q params) as [text|]; cbn [fst snd HomeV1.results HomeV1.hasNext
    HomeV1.total HomeV1.previousHref HomeV1.currentHref HomeV1.nextHref
    SearchResult.items SearchResult.hasNext SearchResult.total SearchResult.previousHref
    SearchResult.currentHref SearchResult.nextHref];
    rewrite ?app_nil_r, ?Nat.add_0_r, ?length_map; repeat split; reflexivity.
Qed.

(** X14: with the semantic flag off, [Home] shows what the older page
    showed, where the two full-text predicates coincide.  Both pages query
    the same table through the same text search; the older page binds
    [q.split(" ").join(" & ")] and leaves a NULL description out of the
    document, [fetchFromDb] binds its own operands and coalesces.  For a
    query parameter that is not an array, a text for which the two bound
    texts are the same, and a table without NULL descriptions: whenever
    the older page is served (the store accepts its text and its offset is
    not negative), [Home] is served too, with the same items, the same
    [hasNext], the same total and the same three links. *)
Theorem Home_agrees_with_V1 (ts : TextSearch) (table : list Apartment.t) (index : Index)
    (params : gmap string RawValue) (v : Async HomeV1.View) :
  (forall l, params !! "query" <> Some (RawArray l)) ->
  ParsedParams.semanticSearch (parseParams params) = false ->
  (forall t, HomeV1.q params = Some t -> HomeV1.tsQuery t = tsQuery t) ->
  (forall a, In a table -> description_column a <> None) ->
  HomeV1_served ts table params = Some v ->
  exists r,
    Home_served ts table index params = Some r
    /\ SearchResult.items (result r) = HomeV1.results (result v)
    /\ SearchResult.hasNext (result r) = HomeV1.hasNext (result v)
    /\ SearchResult.total (result r) = HomeV1.total (result v)
    /\ SearchResult.previousHref (result r) = HomeV1.previousHref (result v)
    /\ SearchResult.currentHref (result r) = HomeV1.currentHref (result v)
    /\ SearchResult.nextHref (result r) = HomeV1.nextHref (result v).
Proof.
  intros Hna Hs Hsame Hnn Hv.
  pose proof (parseParams_q_V1 params Hna) as Hq.
  assert (HomeV1.Home (search_store_V1 ts table) params = Some v
          /\ Home_served ts table index params
             = Some (Home (search_store ts table) index params)) as [Hv1 Hr].
  { unfold HomeV1_served in Hv. unfold Home_served. rewrite Hq.
    destruct (HomeV1.q params) as [t|] eqn:Et; [|split; [exact Hv|reflexivity]].
    rewrite <- (Hsame t eq_refl).
    destruct (accepts ts (HomeV1.tsQuery t)); [|discriminate].
    split; [exact Hv|reflexivity]. }
  exists (Home (search_store ts table) index params). split; [exact Hr|].
  apply (Home_V1_same_page (search_store_V1 ts table) (search_store ts table));
    try assumption; [reflexivity|].
  intros t a Ht Ha. cbn [ts_match search_store search_store_V1 apartmentTable] in *.
  unfold document_V1, document. specialize (Hnn a Ha).
  destruct (description_column a); [|contradiction Hnn; reflexivity].
  rewrite (Hsame t Ht). reflexivity.
Qed.

End Versions.

Lemma Home_agrees_with_V1_witness :
  HomeV1_served Scenario.engine Scenario.table Scenario.two_words
  = Some Scenario.v1_two_words
  /\ exists r,
       Home_served Scenario.engine Scenario.table Scenario.no_hits Scenario.two_words
       = Some r
       /\ List.map Apartment.id (SearchResult.items (result r)) = ["1"; "2"; "3"]
       /\ SearchResult.items (result r) = HomeV1.results (result Scenario.v1_two_words).
Proof.
  assert (HomeV1_served Scenario.engine Scenario.table Scenario.two_words
          = Some Scenario.v1_two_words) as H by reflexivity.
  assert (forall l, Scenario.two_words !! "query" <> Some (RawArray l)) as Hna
    by (intros l; vm_compute; discriminate).
  assert (forall t, HomeV1.q Scenario.two_words = Some t -> HomeV1.tsQuery t = tsQuery t)
    as Hsame by (intros t Ht; vm_compute in Ht; injection Ht as <-; reflexivity).
  assert (forall a, In a Scenario.table -> description_column a <> None) as Hnn.
  { intros a Ha. cbn in Ha.
    repeat (destruct Ha as [<-|Ha]; [discriminate|]). destruct Ha. }
  split; [exact H|].
  destruct (Home_agrees_with_V1 Scenario.engine Scenario.table Scenario.no_hits
              Scenario.two_words Scenario.v1_two_words Hna eq_refl Hsame Hnn H)
    as (r & Hr & Hi & _).
  exists r. split; [exact Hr|]. split; [|exact Hi].
  rewrite Hi. reflexivity.
Defined.

(* ================================================================== *)
(** * The text bound to [to_tsquery] *)
(* ================================================================== *)

Section TsQuery.

Lemma split_ws_push (b : bool) (a : ascii) (s1 : string) :
  leads_ws (String a s1) = false ->
  split_ws b (String a s1) = push a (split_ws false s1).
Proof.
  destruct s1 as [|c [|d s3]]; cbn [leads_ws split_ws].
  - destruct (JsString.ws1 a); [discriminate|reflexivity].
  - destruct (JsString.ws1 a); [discriminate|]. cbn [orb].
    destruct (JsString.ws2 a c); [discriminate|reflexivity].
  - destruct (JsString.ws1 a); [discriminate|]. cbn [orb].
    destruct (JsString.ws2 a c); [discriminate|]. cbn [orb].
    destruct (JsString.ws3 a c d); [discriminate|reflexivity].
Qed.

Lemma split_ws_gap (b : bool) (s : string) :
  leads_ws s = true ->
  exists rest, split_ws b s = gap b (split_ws true rest)
               /\ (String.length rest < String.length s)%nat.
Proof.
  destruct s as [|a [|c [|d s3]]]; cbn [leads_ws].
  - discriminate.
  - destruct (JsString.ws1 a) eqn:E1; [|discriminate]. intros _. exists EmptyString.
    split; [cbn [split_ws]; rewrite E1; reflexivity|cbn; lia].
  - destruct (JsString.ws1 a) eqn:E1.
    { intros _. exists (String c EmptyString).
      split; [cbn [split_ws]; rewrite E1; reflexivity|cbn; lia]. }
    cbn [orb]. destruct (JsString.ws2 a c) eqn:E2; [|discriminate].
    intros _. exists EmptyString.
    split; [cbn [split_ws]; rewrite E1, E2; reflexivity|cbn; lia].
  - destruct (JsString.ws1 a) eqn:E1.
    { intros _. exists (String c (String d s3)).
      split; [cbn [split_ws]; rewrite E1; reflexivity|cbn; lia]. }
    cbn [orb]. destruct (JsString.ws2 a c) eqn:E2.
    { intros _. exists (String d s3).
      split; [cbn [split_ws]; rewrite E1, E2; reflexivity|cbn; lia]. }
    cbn [orb]. destruct (JsString.ws3 a c d) eqn:E3; [|discriminate].
    intros _. exists s3.
    split; [cbn [split_ws]; rewrite E1, E2, E3; reflexivity|cbn; lia].
Qed.

(** The first piece is a prefix of the text. *)
Lemma split_ws_head (s : string) :
  exists h t r, split_ws false s = h :: t /\ s = h +:+ r.
Proof.
  induction s as [|a s1 IH].
  - exists EmptyString, [], EmptyString. split; reflexivity.
  - destruct (leads_ws (String a s1)) eqn:E.
    + destruct (split_ws_gap false _ E) as (rest & -> & _).
      exists EmptyString, (split_ws true rest), (String a s1). split; reflexivity.
    + rewrite (split_ws_push _ _ _ E). destruct IH as (h & t & r & -> & Hs).
      exists (String a h), t, r. split; [reflexivity|]. rewrite app_cons, <- Hs. reflexivity.
Qed.

Lemma split_ws_free (n : nat) (s : string) (b : bool) :
  (String.length s <= n)%nat ->
  Forall (fun t => has_ws t = false) (split_ws b s).
Proof.
  revert s b. induction n as [|n IH]; intros s b Hn.
  - destruct s; [|cbn in Hn; lia]. repeat constructor.
  - destruct s as [|a s1]; [repeat constructor|].
    destruct (leads_ws (String a s1)) eqn:E.
    + destruct (split_ws_gap b _ E) as (rest & -> & Hl).
      assert (Forall (fun t => has_ws t = false) (split_ws true rest)) as H
        by (apply IH; lia).
      destruct b; cbn [gap]; [exact H|constructor; [reflexivity|exact H]].
    + rewrite (split_ws_push _ _ _ E).
      cbn [String.length] in Hn.
      pose proof (IH s1 false ltac:(lia)) as H.
      destruct (split_ws_head s1) as (h & t & r & Hh & Hs). rewrite Hh in *.
      cbn [push]. apply Forall_cons in H. destruct H as [H1 H2].
      constructor; [|exact H2].
      cbn [has_ws]. rewrite H1, orb_false_r.
      apply (leads_ws_prefix _ r). rewrite app_cons, <- Hs. exact E.
Qed.

Lemma split_ws_whole (s : string) : has_ws s = false -> split_ws false s = [s].
Proof.
  induction s as [|a s1 IH]; [reflexivity|].
  cbn [has_ws]. intros H. apply orb_false_iff in H. destruct H as [H1 H2].
  rewrite (split_ws_push _ _ _ H1), (IH H2). reflexivity.
Qed.

Lemma has_ws_app (x w : string) : leads_ws w = true -> has_ws (x +:+ w) = true.
Proof.
  intros Hw. induction x as [|a x IH].
  - change (EmptyString +:+ w) with w. destruct w; [discriminate|].
    cbn [has_ws]. rewrite Hw. reflexivity.
  - rewrite app_cons. cbn [has_ws]. rewrite IH. apply orb_true_r.
Qed.

Lemma leads_ws_rev_tail (s : string) :
  leads_ws_rev (JsString.rev s) = true ->
  exists x w, s = x +:+ w /\ leads_ws w = true.
Proof.
  intros H. rewrite <- (string_rev_involutive s).
  destruct (JsString.rev s) as [|c [|b [|a r]]]; cbn [leads_ws_rev] in H.
  - discriminate.
  - rewrite orb_false_r in H. exists EmptyString, (String c EmptyString).
    split; [reflexivity|]. cbn. rewrite H. reflexivity.
  - rewrite orb_false_r in H. rewrite !string_rev_cons.
    apply orb_true_iff in H. destruct H as [H|H].
    + exists (JsString.rev (String b EmptyString)), (String c EmptyString).
      split; [reflexivity|]. cbn. rewrite H. reflexivity.
    + exists EmptyString, (String b (String c EmptyString)). split; [reflexivity|].
      cbn. rewrite H. apply orb_true_r.
  - rewrite !string_rev_cons. apply orb_true_iff in H. destruct H as [H|H].
    + exists ((JsString.rev r +:+ String a EmptyString) +:+ String b EmptyString),
        (String c EmptyString).
      split; [reflexivity|]. cbn. rewrite H. reflexivity.
    + apply orb_true_iff in H. destruct H as [H|H].
      * exists (JsString.rev r +:+ String a EmptyString), (String b (String c EmptyString)).
        split; [rewrite !string_app_assoc; reflexivity|].
        cbn. rewrite H. apply orb_true_r.
      * exists (JsString.rev r), (String a (String b (String c EmptyString))).
        split; [rewrite !string_app_assoc; reflexivity|].
        cbn. rewrite H. rewrite !orb_true_r. reflexivity.
Qed.

Lemma trim_free (s : string) : has_ws s = false -> JsString.trim s = s.
Proof.
  intros H. unfold JsString.trim.
  assert (JsString.trimStart s = s) as ->.
  { apply trimStart_fixed. destruct s; [reflexivity|].
    cbn [has_ws] in H. apply orb_false_iff in H. tauto. }
  unfold JsString.trimEnd. rewrite trimStart_rev_fixed; [apply string_rev_involutive|].
  destruct (leads_ws_rev (JsString.rev s)) eqn:E; [|reflexivity].
  destruct (leads_ws_rev_tail s E) as (x & w & -> & Hw).
  rewrite (has_ws_app x w Hw) in H. discriminate.
Qed.

Lemma truthy_cons (a : ascii) (s : string) : JsString.truthy (String a s) = true.
Proof. reflexivity. Qed.

Lemma join_singleton (sep x : string) : join sep [x] = x.
Proof. reflexivity. Qed.

Lemma split_on_adjacent (d : ascii) (u v : string) :
  In EmptyString (List.tl (Url.split_on d (u +:+ String d (String d v)))).
Proof.
  induction u as [|a u IH].
  - change (EmptyString +:+ ?x) with x. cbn [Url.split_on]. rewrite Ascii.eqb_refl.
    cbn [List.tl]. left. reflexivity.
  - rewrite app_cons. cbn [Url.split_on]. destruct (Ascii.eqb a d).
    + cbn [List.tl]. destruct (Url.split_on d (u +:+ String d (String d v))) as [|h t];
        [destruct IH|]. right. exact IH.
    + destruct (Url.split_on d (u +:+ String d (String d v))) as [|h t];
        [destruct IH|]. exact IH.
Qed.

Lemma tsQuery_free (q : string) : has_ws q = false -> tsQuery q = q.
Proof.
  intros H. unfold tsQuery, tokens. rewrite (trim_free _ H), (split_ws_whole _ H).
  destruct q; reflexivity.
Qed.

Lemma has_ws_no_space (s : string) : has_ws s = false -> no_char " " s = true.
Proof.
  induction s as [|a s IH]; [reflexivity|].
  cbn [has_ws no_char]. intros H. apply orb_false_iff in H. destruct H as [H1 H2].
  rewrite (IH H2), andb_true_r.
  destruct (Ascii.eqb a " ") eqn:E; [|reflexivity].
  apply Ascii.eqb_eq in E. subst a. cbn in H1. discriminate H1.
Qed.

(** X15: the operands that [fetchFromDb] joins with [" & "] for
    [to_tsquery].  No operand is empty and none contains a white-space
    character; there is no operand at all exactly when the text is white
    space only, which never happens for a text produced by [parseParams];
    white space around the text makes no difference; and a text without
    white space is bound as it is. *)
Theorem tsQuery_tokens (q : string) :
  Forall (fun t => t <> EmptyString /\ has_ws t = false) (tokens q)
  /\ (tokens q = [] <-> JsString.WhiteSpaceOnly q)
  /\ tokens (JsString.trim q) = tokens q
  /\ (has_ws q = false -> tsQuery q = q)
  /\ (forall pp : gmap string RawValue, forall t,
        ParsedParams.q (parseParams pp) = Some t -> tokens t <> []).
Proof.
  assert (forall s, tokens s = [] <-> JsString.WhiteSpaceOnly s) as Hblank.
  { intros s. rewrite <- trim_blank. unfold tokens. split.
    - intros H. destruct (JsString.trim s) as [|a s1] eqn:Es; [reflexivity|].
      exfalso.
      destruct (trim_spec s) as (p & w & _ & _ & _ & Hl & _). rewrite Es in Hl.
      rewrite (split_ws_push _ _ _ Hl) in H.
      destruct (split_ws_head s1) as (h & t & r & Hh & _). rewrite Hh in H.
      cbn [push List.filter] in H. rewrite truthy_cons in H. discriminate.
    - intros ->. reflexivity. }
  split; [|split; [exact (Hblank q)|split; [|split]]].
  - unfold tokens. apply List.Forall_forall. intros t Ht.
    apply List.filter_In in Ht. destruct Ht as [Hin Ht]. split.
    + intros ->. discriminate.
    + pose proof (split_ws_free _ (JsString.trim q) false (le_n _)) as H.
      rewrite List.Forall_forall in H. apply H. exact Hin.
  - unfold tokens. rewrite trim_idempotent. reflexivity.
  - apply tsQuery_free.
  - intros pp t Ht E. apply Hblank in E.
    pose proof (parseParams_normalized pp) as Hn. rewrite Ht in Hn.
    apply trim_blank in E.
    unfold normalized_text in Hn. destruct Hn as [Hn1 Hn2]. rewrite Hn2 in E.
    exact (Hn1 E).
Qed.

(** X16: the text the older page binds to [to_tsquery].  For a text
    without white space it is what [fetchFromDb] binds; but it splits at
    single spaces only, so a text with two adjacent spaces yields an empty
    operand, which [fetchFromDb] never does. *)
Theorem tsQuery_V1_operands (q u v : string) :
  (has_ws q = false -> HomeV1.tsQuery q = tsQuery q)
  /\ In EmptyString (Url.split_on " " (u +:+ "  " +:+ v))
  /\ ~ In EmptyString (tokens q).
Proof.
  split; [|split].
  - intros H. rewrite (tsQuery_free _ H). unfold HomeV1.tsQuery.
    rewrite split_on_no_char by (apply has_ws_no_space; exact H). reflexivity.
  - change (u +:+ "  " +:+ v) with (u +:+ String " " (String " " v)).
    pose proof (split_on_adjacent " " u v) as H.
    destruct (Url.split_on " " (u +:+ String " " (String " " v))) as [|h t]; [destruct H|].
    right. exact H.
  - unfold tokens. intros H. apply List.filter_In in H. destruct H as [_ H]. discriminate H.
Qed.

End TsQuery.

Lemma tsQuery_V1_operands_witness :
  HomeV1.tsQuery "loft" = tsQuery "loft"
  /\ In EmptyString (Url.split_on " " "sea  view").
Proof.
  split.
  - exact (proj1 (tsQuery_V1_operands "loft" "sea" "view") eq_refl).
  - exact (proj1 (proj2 (tsQuery_V1_operands "loft" "sea" "view"))).
Defined.


(* ================================================================== *)
(** * The seed script *)
(* ================================================================== *)

Section SeedScript.

Lemma apartments_ids (faker : Seed.Faker) :
  List.map Apartment.id (Seed.apartments faker) = seed_ids.
Proof. reflexivity. Qed.

Lemma insert_present (table : list Apartment.t) (a : Apartment.t) :
  In (Apartment.id a) (List.map Apartment.id table) ->
  Seed.insert_onConflictDoNothing table a = table.
Proof.
  intros H. unfold Seed.insert_onConflictDoNothing.
  assert (existsb (fun r => String.eqb (Apartment.id r) (Apartment.id a)) table = true) as ->;
    [|reflexivity].
  apply existsb_exists. apply in_map_iff in H. destruct H as (r & Hr & Hin).
  exists r. split; [exact Hin|]. apply String.eqb_eq. exact Hr.
Qed.

Lemma insert_absent (table : list Apartment.t) (a : Apartment.t) :
  ~ In (Apartment.id a) (List.map Apartment.id table) ->
  Seed.insert_onConflictDoNothing table a = table ++ [a].
Proof.
  intros H. unfold Seed.insert_onConflictDoNothing.
  destruct (existsb _ table) eqn:E; [|reflexivity].
  exfalso. apply H. apply existsb_exists in E. destruct E as (r & Hin & Hr).
  apply String.eqb_eq in Hr. rewrite <- Hr. apply in_map. exact Hin.
Qed.

Lemma main_keeps (arrival table : list Apartment.t) :
  exists added, Seed.main arrival table = table ++ added.
Proof.
  revert table. induction arrival as [|a arrival IH]; intros table.
  - exists []. cbn. rewrite app_nil_r. reflexivity.
  - cbn [Seed.main fold_left].
    destruct (IH (Seed.insert_onConflictDoNothing table a)) as (added & Hadd).
    unfold Seed.main in Hadd. rewrite Hadd.
    unfold Seed.insert_onConflictDoNothing. destruct (existsb _ table).
    + exists added. reflexivity.
    + exists (a :: added). rewrite <- app_assoc. reflexivity.
Qed.

Lemma main_has (arrival table : list Apartment.t) (k : string) :
  In k (List.map Apartment.id table) \/ In k (List.map Apartment.id arrival) ->
  In k (List.map Apartment.id (Seed.main arrival table)).
Proof.
  revert table. induction arrival as [|a arrival IH]; intros table H.
  - cbn in *. tauto.
  - cbn [Seed.main fold_left]. apply IH.
    destruct H as [H|H].
    + left. unfold Seed.insert_onConflictDoNothing. destruct (existsb _ table); [exact H|].
      rewrite List.map_app. apply in_or_app. tauto.
    + cbn [List.map In] in H. destruct H as [<-|H]; [|tauto]. left.
      destruct (in_dec String.string_dec (Apartment.id a) (List.map Apartment.id table))
        as [Hin|Hout].
      * rewrite (insert_present _ _ Hin). exact Hin.
      * rewrite (insert_absent _ _ Hout), List.map_app. apply in_or_app.
        right. left. reflexivity.
Qed.

Lemma main_noop (arrival table : list Apartment.t) :
  (forall a, In a arrival -> In (Apartment.id a) (List.map Apartment.id table)) ->
  Seed.main arrival table = table.
Proof.
  induction arrival as [|a arrival IH]; intros H; [reflexivity|].
  cbn [Seed.main fold_left]. rewrite insert_present; [|apply H; left; reflexivity].
  apply IH. intros b Hb. apply H. right. exact Hb.
Qed.

Lemma main_fresh (arrival table : list Apartment.t) :
  List.NoDup (List.map Apartment.id arrival) ->
  (forall a, In a arrival -> ~ In (Apartment.id a) (List.map Apartment.id table)) ->
  Seed.main arrival table = table ++ arrival.
Proof.
  revert table. induction arrival as [|a arrival IH]; intros table Hnd Hout.
  - cbn. rewrite app_nil_r. reflexivity.
  - cbn [Seed.main fold_left]. rewrite insert_absent; [|apply Hout; left; reflexivity].
    cbn [List.map] in Hnd. apply List.NoDup_cons_iff in Hnd. destruct Hnd as [Ha Hnd].
    unfold Seed.main in IH. rewrite IH; [rewrite <- app_assoc; reflexivity|exact Hnd|].
    intros b Hb Hin. rewrite List.map_app in Hin. apply in_app_or in Hin.
    destruct Hin as [Hin|Hin].
    + exact (Hout b (or_intror Hb) Hin).
    + cbn in Hin. destruct Hin as [Hin|[]]. apply Ha. rewrite Hin. apply in_map. exact Hb.
Qed.

Lemma seed_ids_NoDup : List.NoDup seed_ids.
Proof.
  unfold seed_ids. repeat (apply List.NoDup_cons; [cbn; intuition discriminate|]).
  apply List.NoDup_nil.
Qed.

Lemma arrival_ids (faker : Seed.Faker) (arrival : list Apartment.t) :
  Permutation arrival (Seed.apartments faker) ->
  Permutation (List.map Apartment.id arrival) seed_ids.
Proof.
  intros Hp. rewrite <- (apartments_ids faker). apply Permutation_map. exact Hp.
Qed.

(** X17: the seed script can be run again.  In whatever order the
    twelve inserts reach the store, every row already in the table is kept
    as it is, all of the ids ["1"] to ["12"] are present afterwards, an
    empty table holds exactly the twelve generated rows, and a second run
    (whatever names and prices it draws) changes nothing. *)
Theorem seed_main (faker1 faker2 : Seed.Faker) (arrival1 arrival2 table : list Apartment.t) :
  Permutation arrival1 (Seed.apartments faker1) ->
  Permutation arrival2 (Seed.apartments faker2) ->
  (exists added, Seed.main arrival1 table = table ++ added)
  /\ (forall k, In k seed_ids -> In k (List.map Apartment.id (Seed.main arrival1 table)))
  /\ Seed.main arrival1 [] = arrival1
  /\ Seed.main arrival2 (Seed.main arrival1 table) = Seed.main arrival1 table.
Proof.
  intros H1 H2.
  pose proof (arrival_ids _ _ H1) as I1. pose proof (arrival_ids _ _ H2) as I2.
  split; [apply main_keeps|split; [|split]].
  - intros k Hk. apply main_has. right.
    apply (Permutation_in k (Permutation_sym I1)). exact Hk.
  - apply (main_fresh arrival1 []).
    + apply (Permutation_NoDup (Permutation_sym I1)). exact seed_ids_NoDup.
    + intros a _ [].
  - apply main_noop. intros a Ha. apply main_has. right.
    apply (Permutation_in _ (Permutation_sym I1)).
    apply (Permutation_in _ I2). apply in_map. exact Ha.
Qed.

End SeedScript.

Lemma seed_main_witness :
  Seed.main (Seed.apartments Scenario.faker)
    (Seed.main (List.rev (Seed.apartments Scenario.faker)) [])
  = Seed.main (List.rev (Seed.apartments Scenario.faker)) [].
Proof.
  exact (proj2 (proj2 (proj2
           (seed_main Scenario.faker Scenario.faker
              (List.rev (Seed.apartments Scenario.faker))
              (Seed.apartments Scenario.faker) []
              (Permutation_sym (Permutation_rev (Seed.apartments Scenario.faker)))
              (Permutation_refl (Seed.apartments Scenario.faker)))))).
Defined.
